(** * Human-in-the-loop investment approval workflow

    A shallow embedding of [human_in_loop/main_invest_approval.py]: the
    [InvestmentTurnManager] executor with its three handlers, and the caller
    loop of [main] that drives the workflow and collects the human decisions.

    Python strings are modelled as [string]; a character stands for a code
    point below 256 (Latin-1), which covers every literal of the source.  On
    that range [str.strip] and [str.lower] are the functions of [PyStr]. *)

From Stdlib Require Import Strings.String Strings.Ascii NArith Bool List Lia.
From stdpp Require Import base gmap strings list.

(** ** Python string operations used by the source *)

Module PyStr.

(** [str.isspace] on one code point below 256: TAB..CR, FS..US, space,
    NEL (0x85) and NBSP (0xA0). *)
Definition isspace (c : ascii) : bool :=
  let n := N_of_ascii c in
  ((9 <=? n) && (n <=? 13) || (28 <=? n) && (n <=? 32)
   || (n =? 133) || (n =? 160))%N.

(** Lower-case mapping of one code point below 256: A..Z, and the Latin-1
    capitals 0xC0..0xDE except the multiplication sign 0xD7. *)
Definition lower_char (c : ascii) : ascii :=
  let n := N_of_ascii c in
  if ((65 <=? n) && (n <=? 90) || (192 <=? n) && (n <=? 214)
      || (216 <=? n) && (n <=? 222))%N
  then ascii_of_N (n + 32) else c.

(** [s.lower()] *)
Fixpoint lower (s : string) : string :=
  match s with
  | EmptyString => EmptyString
  | String c r => String (lower_char c) (lower r)
  end.

(** [s.lstrip()] *)
Fixpoint lstrip (s : string) : string :=
  match s with
  | EmptyString => EmptyString
  | String c r => if isspace c then lstrip r else s
  end.

(** [s.rstrip()] *)
Fixpoint rstrip (s : string) : string :=
  match s with
  | EmptyString => EmptyString
  | String c r =>
      match rstrip r with
      | EmptyString => if isspace c then EmptyString else String c EmptyString
      | r' => String c r'
      end
  end.

(** [s.strip()] *)
Definition strip (s : string) : string := rstrip (lstrip s).

(** [s.startswith(p)] *)
Definition startswith (s p : string) : bool := String.prefix p s.

(** [len(s)] *)
Definition len (s : string) : nat := String.length s.

(** [s[n:]] for a non-negative [n] *)
Fixpoint slice_from (n : nat) (s : string) : string :=
  match n, s with
  | O, _ => s
  | S _, EmptyString => EmptyString
  | S k, String _ r => slice_from k r
  end.

(** [s * n] *)
Fixpoint mul (s : string) (n : nat) : string :=
  match n with
  | O => EmptyString
  | S k => s +:+ mul s k
  end.

(** [needle in hay] *)
Fixpoint contains (needle hay : string) : bool :=
  String.prefix needle hay
  || match hay with
     | EmptyString => false
     | String _ r => contains needle r
     end.

(** The characters that a Rocq string literal cannot hold directly. *)
Definition nl : string := String "010"%char EmptyString.
Definition dq : string := String "034"%char EmptyString.

End PyStr.

Import PyStr.

(** ** Messages exchanged along the workflow graph *)

Inductive Role := SYSTEM | USER | ASSISTANT | TOOL.

Record ChatMessage := mkChatMessage
  { role : Role; text : string }.

Record AgentExecutorRequest := mkAgentExecutorRequest
  { messages : list ChatMessage; should_respond : bool }.

(** [result.agent_run_response.text], which the handler guards with [or ""]. *)
Record AgentExecutorResponse := mkAgentExecutorResponse
  { agent_run_response_text : option string }.

(** [class InvestmentApprovalRequest(RequestInfoMessage)] *)
Record InvestmentApprovalRequest := mkInvestmentApprovalRequest
  { prompt : string; recommendation : string; ticker : string }.

(** [class InvestmentRecommendation(BaseModel)] *)
Record InvestmentRecommendation := mkInvestmentRecommendation
  { rec_ticker : string; rec_action : string;
    rec_rationale : string; rec_confidence : string }.

(** [RequestResponse[InvestmentApprovalRequest, str]]: [data] may be [None];
    [original_request] is [None] for an object without a [ticker] attribute
    (the case [getattr(..., "ticker", "")] provides for). *)
Record RequestResponse := mkRequestResponse
  { data : option string;
    original_request : option InvestmentApprovalRequest }.

(** What a handler may pass to [ctx.send_message]. *)
Inductive Message :=
| MAgentRequest (r : AgentExecutorRequest)
| MApprovalRequest (r : InvestmentApprovalRequest).

(** The destination of a message sent by the turn manager: its two outgoing
    edges lead to the agent executor and to the request-info executor, and
    each accepts one of the two message types. *)
Inductive Node := investment_turn_manager | investment_agent | request_info.

Definition destination (m : Message) : Node :=
  match m with
  | MAgentRequest _ => investment_agent
  | MApprovalRequest _ => request_info
  end.

(** ** The handler context: a log of emissions, and exceptions *)

Inductive Emission :=
| SendMessage (m : Message)
| YieldOutput (o : string).

Inductive Exn := ValidationError.

Definition Handler (A : Type) : Type :=
  list Emission -> (Exn + A) * list Emission.

Definition hret {A} (a : A) : Handler A := fun log => (inr a, log).

Definition hbind {A B} (m : Handler A) (k : A -> Handler B) : Handler B :=
  fun log =>
    match m log with
    | (inl e, log') => (inl e, log')
    | (inr a, log') => k a log'
    end.

Definition raise {A} (e : Exn) : Handler A := fun log => (inl e, log).

(** [try: body  except Exception: handler] *)
Definition try_except {A} (body handler : Handler A) : Handler A :=
  fun log =>
    match body log with
    | (inl _, log') => handler log'
    | ok => ok
    end.

(** [await ctx.send_message(m)] *)
Definition send_message (m : Message) : Handler unit :=
  fun log => (inr tt, log ++ [SendMessage m]).

(** [await ctx.yield_output(o)] *)
Definition yield_output (o : string) : Handler unit :=
  fun log => (inr tt, log ++ [YieldOutput o]).

#[global] Instance Handler_ret : MRet Handler := @hret.
#[global] Instance Handler_bind : MBind Handler :=
  fun A B k m => hbind m k.

(** Running a handler on a fresh context. *)
Definition run {A} (h : Handler A) : (Exn + A) * list Emission := h [].

(** ** The turn manager: [class InvestmentTurnManager(Executor)] *)

(** [x or ""] for an optional string. *)
Definition or_empty (x : option string) : string :=
  match x with
  | Some s => s
  | None => ""
  end.

(** [getattr(original_request, "ticker", "")] *)
Definition getattr_ticker (o : option InvestmentApprovalRequest) : string :=
  match o with
  | Some r => ticker r
  | None => ""
  end.

(** ['='*60] *)
Definition bar : string := mul "=" 60.

(** The prompt built in the [try] branch of [on_agent_response]. *)
Definition recommendation_prompt (r : InvestmentRecommendation) : string :=
  nl +:+ bar +:+ nl +:+
  "INVESTMENT RECOMMENDATION" +:+ nl +:+
  bar +:+ nl +:+
  "Ticker: " +:+ rec_ticker r +:+ nl +:+
  "Action: " +:+ rec_action r +:+ nl +:+
  "Confidence: " +:+ rec_confidence r +:+ nl +:+
  "Rationale: " +:+ rec_rationale r +:+ nl +:+
  bar +:+ nl +:+ nl +:+
  "Type one of:" +:+ nl +:+
  "  approve - Execute this recommendation" +:+ nl +:+
  "  refine <feedback> - Request modifications (e.g., 'refine focus on risk factors')" +:+ nl +:+
  "  exit - Cancel and exit" +:+ nl.

(** The prompt built in the [except] branch of [on_agent_response]. *)
Definition fallback_prompt (text : string) : string :=
  nl +:+ bar +:+ nl +:+
  "INVESTMENT ANALYSIS" +:+ nl +:+
  bar +:+ nl +:+
  text +:+ nl +:+
  bar +:+ nl +:+ nl +:+
  "Type one of: approve, refine <feedback>, or exit" +:+ nl.

(** The schema reminder that closes a refinement message. *)
Definition schema_hint : string :=
  "Return a JSON object matching the schema: {" +:+
  dq +:+ "ticker" +:+ dq +:+ ": str, " +:+
  dq +:+ "action" +:+ dq +:+ ": str, " +:+
  dq +:+ "rationale" +:+ dq +:+ ": str, " +:+
  dq +:+ "confidence" +:+ dq +:+ ": str}".

Definition refinement_text (refinement_feedback : string) : string :=
  "Please refine your recommendation based on this feedback: " +:+
  refinement_feedback +:+ ". " +:+ schema_hint.

Definition invalid_input_text : string :=
  "Please provide a valid investment recommendation in JSON format.".

Definition approved_text (ticker : string) : string :=
  "Investment recommendation for " +:+ ticker +:+
  " approved and ready for execution.".

(** [AgentExecutorRequest(messages=[ChatMessage(Role.USER, text=t)],
    should_respond=True)] *)
Definition user_request (t : string) : Message :=
  MAgentRequest (mkAgentExecutorRequest [mkChatMessage USER t] true).

(** [async def start(self, ticker, ctx)] *)
Definition start (ticker : string) : Handler unit :=
  let user :=
    mkChatMessage USER
      ("Analyze " +:+ ticker +:+
       " and provide an investment recommendation with rationale.") in
  send_message (MAgentRequest (mkAgentExecutorRequest [user] true)).

(** [async def on_human_feedback(self, feedback, ctx)] *)
Definition on_human_feedback (feedback : RequestResponse) : Handler unit :=
  let reply := lower (strip (or_empty (data feedback))) in
  let ticker := getattr_ticker (original_request feedback) in
  if String.eqb reply "approve" then
    yield_output (approved_text ticker)
  else if startswith reply "refine" then
    let refinement_feedback :=
      if (6 <? len reply)%nat then strip (slice_from 6 reply)
      else "provide more details" in
    let user_msg := mkChatMessage USER (refinement_text refinement_feedback) in
    send_message (MAgentRequest (mkAgentExecutorRequest [user_msg] true))
  else
    let user_msg := mkChatMessage USER invalid_input_text in
    send_message (MAgentRequest (mkAgentExecutorRequest [user_msg] true)).

Section AgentResponse.

(** [InvestmentRecommendation.model_validate_json], pydantic's validator for
    the four-field schema: [None] stands for the exception it raises on
    text that does not validate. *)
Variable model_validate_json : string -> option InvestmentRecommendation.

Definition validate (text : string) : Handler InvestmentRecommendation :=
  match model_validate_json text with
  | Some r => hret r
  | None => raise ValidationError
  end.

(** [async def on_agent_response(self, result, ctx)] *)
Definition on_agent_response (result : AgentExecutorResponse) : Handler unit :=
  let text := or_empty (agent_run_response_text result) in
  try_except
    (recommendation ← validate text;
     let prompt := recommendation_prompt recommendation in
     send_message
       (MApprovalRequest
          (mkInvestmentApprovalRequest prompt text (rec_ticker recommendation))))
    (let prompt := fallback_prompt text in
     send_message
       (MApprovalRequest (mkInvestmentApprovalRequest prompt text ""))).

End AgentResponse.

(** ** The caller loop of [main] *)

Inductive WorkflowRunState :=
| STARTED | IN_PROGRESS | IN_PROGRESS_PENDING_REQUESTS
| IDLE | IDLE_WITH_PENDING_REQUESTS | FAILED | CANCELLED.

(** The payload of a [RequestInfoEvent]: an [InvestmentApprovalRequest] or
    an object of another class. *)
Inductive RequestData :=
| ApprovalData (r : InvestmentApprovalRequest)
| OtherData.

(** The events of a stream.  A [WorkflowOutputEvent] carries [str(event.data)]. *)
Inductive Event :=
| RequestInfoEvent (request_id : string) (d : RequestData)
| WorkflowOutputEvent (d : string)
| WorkflowStatusEvent (state : WorkflowRunState)
| OtherEvent.

(** The built workflow object, as the loop uses it: two entry points, each
    returning the events of one invocation. *)
Class Workflow (W : Type) := {
  run_stream : string -> W -> list Event * W;
  send_responses_streaming : gmap string string -> W -> list Event * W
}.

(** What the loop does to the outside world, in order. *)
Inductive Action :=
| Print (s : string)
| Input (prompt : string)
| RunStream (ticker : string)
| SendResponses (responses : gmap string string).

Record World (W : Type) := mkWorld
  { stdin : list string; workflow : W; trace : list Action }.
Arguments mkWorld {W}.
Arguments stdin {W}.
Arguments workflow {W}.
Arguments trace {W}.

(** How [main] ends: it falls out of the loop and displays the result, it
    returns on [exit], [input] raises at end of input, or the loop is still
    running when the fuel is spent. *)
Inductive Outcome :=
| Finished (workflow_output : option string)
| Cancelled
| EOFError
| OutOfFuel.

(** The answers of one round: the dictionary, or the two ways out. *)
Inductive Collected :=
| Answers (responses : gmap string string)
| Exit
| Eof.

Definition is_status (s : WorkflowRunState) (e : Event) : bool :=
  match e with
  | WorkflowStatusEvent s' =>
      match s, s' with
      | STARTED, STARTED | IN_PROGRESS, IN_PROGRESS
      | IN_PROGRESS_PENDING_REQUESTS, IN_PROGRESS_PENDING_REQUESTS
      | IDLE, IDLE | IDLE_WITH_PENDING_REQUESTS, IDLE_WITH_PENDING_REQUESTS
      | FAILED, FAILED | CANCELLED, CANCELLED => true
      | _, _ => false
      end
  | _ => false
  end.

(** One step of [for event in events]: the state is
    [(requests, workflow_output, completed)]. *)
Definition scan_event
    (acc : list (string * string) * option string * bool) (e : Event)
  : list (string * string) * option string * bool :=
  let '(requests, workflow_output, completed) := acc in
  match e with
  | RequestInfoEvent request_id (ApprovalData r) =>
      (requests ++ [(request_id, prompt r)], workflow_output, completed)
  | WorkflowOutputEvent d => (requests, Some d, true)
  | _ => acc
  end.

(** [f"{workflow_output}"] *)
Definition fstr (o : option string) : string :=
  match o with
  | Some s => s
  | None => "None"
  end.

(** The invocations of the workflow recorded in a trace. *)
Definition is_invocation (a : Action) : bool :=
  match a with
  | RunStream _ | SendResponses _ => true
  | _ => false
  end.

Definition invocations (t : list Action) : list Action :=
  List.filter is_invocation t.

Section CallerLoop.

Context {W : Type} {WF : Workflow W}.

Definition print (s : string) (w : World W) : World W :=
  mkWorld (stdin w) (workflow w) (trace w ++ [Print s]).

(** [input(prompt)]: [None] when standard input is exhausted. *)
Definition input (p : string) (w : World W) : option string * World W :=
  match stdin w with
  | [] => (None, mkWorld [] (workflow w) (trace w ++ [Input p]))
  | line :: rest => (Some line, mkWorld rest (workflow w) (trace w ++ [Input p]))
  end.

(** [send_responses_streaming(pending_responses) if pending_responses
    else run_stream(ticker)], with the events of the stream collected. *)
Definition invoke (ticker : string) (pending_responses : option (gmap string string))
    (w : World W) : list Event * World W :=
  match pending_responses with
  | Some responses =>
      if bool_decide (responses = ∅) then
        let '(events, wf) := run_stream ticker (workflow w) in
        (events, mkWorld (stdin w) wf (trace w ++ [RunStream ticker]))
      else
        let '(events, wf) := send_responses_streaming responses (workflow w) in
        (events, mkWorld (stdin w) wf (trace w ++ [SendResponses responses]))
  | None =>
      let '(events, wf) := run_stream ticker (workflow w) in
      (events, mkWorld (stdin w) wf (trace w ++ [RunStream ticker]))
  end.

(** [for req_id, prompt in requests: ...] *)
Fixpoint collect (requests : list (string * string))
    (responses : gmap string string) (w : World W) : Collected * World W :=
  match requests with
  | [] => (Answers responses, w)
  | (req_id, p) :: rest =>
      let w1 := print p w in
      match input "Your decision: " w1 with
      | (None, w2) => (Eof, w2)
      | (Some line, w2) =>
          let answer := lower (strip line) in
          if String.eqb answer "exit" then
            (Exit, print (nl +:+ "Workflow cancelled by user.") w2)
          else collect rest (<[req_id := answer]> responses) w2
      end
  end.

(** The status lines printed after the events are scanned. *)
Definition report_status (events : list Event) (w : World W) : World W :=
  let pending_status := existsb (is_status IN_PROGRESS_PENDING_REQUESTS) events in
  let idle_with_requests := existsb (is_status IDLE_WITH_PENDING_REQUESTS) events in
  let w1 := if pending_status
            then print "[Status: Processing agent response...]" w else w in
  if idle_with_requests
  then print "[Status: Awaiting human decision...]" w1 else w1.

(** The lines printed after the loop. *)
Definition display_result (workflow_output : option string) (w : World W)
  : World W :=
  print (bar +:+ nl)
    (print (fstr workflow_output)
       (print bar
          (print "WORKFLOW COMPLETE"
             (print (nl +:+ bar) w)))).

(** [while not completed: ...] followed by the display of the result.
    Each unit of fuel pays for one iteration. *)
Fixpoint main_while (fuel : nat) (ticker : string)
    (pending_responses : option (gmap string string))
    (workflow_output : option string) (w : World W) : Outcome * World W :=
  match fuel with
  | O => (OutOfFuel, w)
  | S fuel' =>
      let '(events, w1) := invoke ticker pending_responses w in
      let '(requests, workflow_output', completed) :=
        fold_left scan_event events ([], workflow_output, false) in
      let w2 := report_status events w1 in
      match requests, completed with
      | _ :: _, false =>
          match collect requests ∅ w2 with
          | (Answers responses, w3) =>
              main_while fuel' ticker (Some responses) workflow_output' w3
          | (Exit, w3) => (Cancelled, w3)
          | (Eof, w3) => (EOFError, w3)
          end
      | _, true => (Finished workflow_output', display_result workflow_output' w2)
      | [], false => main_while fuel' ticker None workflow_output' w2
      end
  end.

(** [main] from the point where the ticker is read and the workflow built. *)
Definition main_loop (fuel : nat) (ticker : string) (w : World W)
  : Outcome * World W :=
  main_while fuel ticker None None
    (print (nl +:+ "Analyzing " +:+ ticker +:+ "..." +:+ nl) w).

(** Two worlds with the same input left, the same workflow and the same
    record of invocations: what printing preserves. *)
Definition same_run (w w' : World W) : Prop :=
  stdin w' = stdin w /\ workflow w' = workflow w
  /\ invocations (trace w') = invocations (trace w).

End CallerLoop.

Definition is_output (e : Event) : bool :=
  match e with
  | WorkflowOutputEvent _ => true
  | _ => false
  end.

(** The data of the last [WorkflowOutputEvent] of a stream. *)
Fixpoint last_output (events : list Event) : option string :=
  match events with
  | [] => None
  | e :: rest =>
      match last_output rest with
      | Some d => Some d
      | None => match e with WorkflowOutputEvent d => Some d | _ => None end
      end
  end.

(** The [(request_id, prompt)] pairs of the approval requests of a stream. *)
Fixpoint approval_requests (events : list Event) : list (string * string) :=
  match events with
  | [] => []
  | RequestInfoEvent request_id (ApprovalData r) :: rest =>
      (request_id, prompt r) :: approval_requests rest
  | _ :: rest => approval_requests rest
  end.

(** A workflow that replays a script: each invocation returns the next
    stream of the script, whichever entry point is called. *)
Definition replay (script : list (list Event)) : list Event * list (list Event) :=
  match script with
  | [] => ([], [])
  | events :: rest => (events, rest)
  end.

#[global] Instance scripted_workflow : Workflow (list (list Event)) :=
  {| run_stream := fun _ => replay;
     send_responses_streaming := fun _ => replay |}.

(** A workflow that only ever reports that it is idle. *)
#[global] Instance idle_workflow : Workflow unit :=
  {| run_stream := fun _ _ => ([WorkflowStatusEvent IDLE], tt);
     send_responses_streaming := fun _ _ => ([WorkflowStatusEvent IDLE], tt) |}.

(** An answer as the loop sends it: trimmed, lower-cased, and not [exit]. *)
Definition sendable (answer : string) : Prop :=
  answer <> "exit" /\ lower (strip answer) = answer.

(** What may appear in a trace: a batch of responses is never empty and
    holds sendable answers only. *)
Definition well_formed_action (a : Action) : Prop :=
  match a with
  | SendResponses responses =>
      responses <> ∅ /\ map_Forall (fun _ answer => sendable answer) responses
  | _ => True
  end.

(** ** The request/response broker *)

(** Modelled from the spec: the Request/Response Broker of the workflow
    engine, which the source imports and does not contain.  It keeps the
    mapping from id to pending request across the invocations of one run;
    [register] always succeeds and draws the id from a monotonically
    increasing counter scoped to the run; [resolve] removes the entry and
    fails with [UnknownRequestId] for an id that was never registered or is
    already resolved. *)
Module Broker.

Record PendingRequest := mkPending
  { origin : Node; payload : InvestmentApprovalRequest }.

Record t := mk
  { next_id : nat; pending : gmap nat PendingRequest }.

Definition empty : t := mk 0 ∅.

Inductive Error := UnknownRequestId.

Definition register (o : Node) (p : InvestmentApprovalRequest) (b : t)
  : nat * t :=
  (next_id b, mk (S (next_id b)) (<[next_id b := mkPending o p]> (pending b))).

(** The synthetic response message and the node it is routed to. *)
Definition resolve (id : nat) (answer : string) (b : t)
  : (Error + Node * RequestResponse) * t :=
  match pending b !! id with
  | Some r =>
      (inr (origin r, mkRequestResponse (Some answer) (Some (payload r))),
       mk (next_id b) (delete id (pending b)))
  | None => (inl UnknownRequestId, b)
  end.

(** What an invocation of the runner asks of the broker. *)
Inductive Op :=
| Register (o : Node) (p : InvestmentApprovalRequest)
| Resolve (id : nat) (answer : string).

(** The ids issued by the operations of one invocation ([start] or
    [resume]), in order, and the broker it leaves. *)
Fixpoint invocation (ops : list Op) (b : t) : list nat * t :=
  match ops with
  | [] => ([], b)
  | Register o p :: rest =>
      let '(id, b1) := register o p b in
      let '(ids, b2) := invocation rest b1 in
      (id :: ids, b2)
  | Resolve id answer :: rest => invocation rest (snd (resolve id answer b))
  end.

(** The ids issued over the successive invocations of a run. *)
Fixpoint issued (invocations : list (list Op)) (b : t) : list nat :=
  match invocations with
  | [] => []
  | ops :: rest =>
      let '(ids, b1) := invocation ops b in
      ids ++ issued rest b1
  end.

End Broker.

(** ** A validator to run the handlers on examples *)

(** A small stand-in for pydantic's validator: it accepts a JSON object
    whose members all have string values written without escapes, and takes
    the four fields of the schema from it (the last occurrence of a key
    wins, other keys are ignored).  The theorems below hold for every
    validator; this one instantiates them. *)
Module SampleValidator.

Definition json_ws (c : ascii) : bool :=
  match N_of_ascii c with
  | 9%N | 10%N | 13%N | 32%N => true
  | _ => false
  end.

Fixpoint skip_ws (s : string) : string :=
  match s with
  | EmptyString => EmptyString
  | String c r => if json_ws c then skip_ws r else s
  end.

(** The characters up to the closing quote, and what follows it. *)
Fixpoint read_string (s : string) : option (string * string) :=
  match s with
  | EmptyString => None
  | String c r =>
      if Ascii.eqb c "034" then Some (EmptyString, r)
      else if Ascii.eqb c "\" then None
      else '(v, rest) ← read_string r; Some (String c v, rest)
  end.

Definition expect (c : ascii) (s : string) : option string :=
  match skip_ws s with
  | String c' r => if Ascii.eqb c c' then Some r else None
  | EmptyString => None
  end.

Definition read_quoted (s : string) : option (string * string) :=
  r ← expect "034" s; read_string r.

Definition read_member (s : string) : option ((string * string) * string) :=
  '(k, r1) ← read_quoted s;
  r2 ← expect ":" r1;
  '(v, r3) ← read_quoted r2;
  Some ((k, v), r3).

Definition at_end (s : string) : bool :=
  match skip_ws s with
  | EmptyString => true
  | _ => false
  end.

Fixpoint read_members (fuel : nat) (s : string) (acc : list (string * string))
  : option (list (string * string)) :=
  match fuel with
  | O => None
  | S fuel' =>
      '(kv, r) ← read_member s;
      match skip_ws r with
      | String c r' =>
          if Ascii.eqb c "," then read_members fuel' r' (acc ++ [kv])
          else if Ascii.eqb c "}" && at_end r' then Some (acc ++ [kv])
          else None
      | EmptyString => None
      end
  end.

Definition parse_object (s : string) : option (list (string * string)) :=
  r ← expect "{" s;
  match expect "}" r with
  | Some r' => if at_end r' then Some [] else None
  | None => read_members (String.length s) r []
  end.

Fixpoint field (k : string) (kvs : list (string * string)) : option string :=
  match kvs with
  | [] => None
  | (k', v) :: rest =>
      match field k rest with
      | Some v' => Some v'
      | None => if String.eqb k k' then Some v else None
      end
  end.

Definition model_validate_json (s : string) : option InvestmentRecommendation :=
  kvs ← parse_object s;
  t ← field "ticker" kvs;
  a ← field "action" kvs;
  r ← field "rationale" kvs;
  c ← field "confidence" kvs;
  Some (mkInvestmentRecommendation t a r c).

(** A well-formed agent answer. *)
Definition well_formed : string :=
  "{" +:+ dq +:+ "ticker" +:+ dq +:+ ": " +:+ dq +:+ "AAPL" +:+ dq +:+ ", "
  +:+ dq +:+ "action" +:+ dq +:+ ": " +:+ dq +:+ "BUY" +:+ dq +:+ ", "
  +:+ dq +:+ "rationale" +:+ dq +:+ ": " +:+ dq +:+ "strong cash flow" +:+ dq +:+ ", "
  +:+ dq +:+ "confidence" +:+ dq +:+ ": " +:+ dq +:+ "HIGH" +:+ dq +:+ "}".

End SampleValidator.

(** ** Facts about the string operations *)

Lemma isspace_lower_char c : isspace (lower_char c) = isspace c.
Proof. destruct c as [[] [] [] [] [] [] [] []]; reflexivity. Qed.

Lemma lower_app s t : lower (s +:+ t) = lower s +:+ lower t.
Proof. induction s as [|c s IH]; simpl; [reflexivity | now rewrite IH]. Qed.

Lemma lstrip_lower s : lstrip (lower s) = lower (lstrip s).
Proof.
  induction s as [|c s IH]; simpl; [reflexivity|].
  rewrite isspace_lower_char. destruct (isspace c); [exact IH | reflexivity].
Qed.

Lemma rstrip_lower s : rstrip (lower s) = lower (rstrip s).
Proof.
  induction s as [|c s IH]; simpl; [reflexivity|].
  rewrite IH, isspace_lower_char.
  destruct (rstrip s); simpl; [destruct (isspace c)|]; reflexivity.
Qed.

Lemma strip_lower s : strip (lower s) = lower (strip s).
Proof. unfold strip. now rewrite lstrip_lower, rstrip_lower. Qed.

Lemma rstrip_lstrip s : rstrip (lstrip s) = lstrip (rstrip s).
Proof.
  induction s as [|c s IH]; simpl; [reflexivity|].
  destruct (isspace c) eqn:Hc.
  - rewrite IH. destruct (rstrip s); simpl; now rewrite ?Hc.
  - simpl. destruct (rstrip s); simpl; now rewrite Hc.
Qed.

Lemma rstrip_idem s : rstrip (rstrip s) = rstrip s.
Proof.
  induction s as [|c s IH]; simpl; [reflexivity|].
  destruct (rstrip s) as [|d r] eqn:Hr.
  - destruct (isspace c) eqn:Hc; simpl; now rewrite ?Hc.
  - change (rstrip (String c (String d r))) with
      (match rstrip (String d r) with
       | EmptyString => if isspace c then EmptyString else String c EmptyString
       | String a r' => String c (String a r')
       end).
    now rewrite IH.
Qed.

Lemma strip_rstrip s : strip (rstrip s) = strip s.
Proof. unfold strip. now rewrite rstrip_lstrip, rstrip_idem, rstrip_lstrip. Qed.

Lemma strip_nonempty_rstrip s : strip s <> "" -> rstrip s <> "".
Proof.
  unfold strip. rewrite rstrip_lstrip. intros Hs Hr. apply Hs. now rewrite Hr.
Qed.

Lemma rstrip_app a t : rstrip t <> "" -> rstrip (a +:+ t) = a +:+ rstrip t.
Proof.
  intros Ht. induction a as [|c a IH]; [reflexivity|].
  change (String c a +:+ t) with (String c (a +:+ t)).
  change (String c a +:+ rstrip t) with (String c (a +:+ rstrip t)).
  simpl. rewrite IH. destruct (a +:+ rstrip t) eqn:E; [|reflexivity].
  destruct a; simpl in E; [contradiction | discriminate].
Qed.

Lemma prefix_app x b : String.prefix x (x +:+ b) = true.
Proof.
  induction x as [|c x IH]; simpl; [now destruct b|].
  destruct (ascii_dec c c); [exact IH | contradiction].
Qed.

Lemma contains_prefix x h : String.prefix x h = true -> contains x h = true.
Proof. intros Hp. destruct h; cbn [contains]; now rewrite Hp. Qed.

Lemma contains_app a x b : contains x (a +:+ x +:+ b) = true.
Proof.
  induction a as [|c a IH].
  - change ("" +:+ x +:+ b) with (x +:+ b). apply contains_prefix, prefix_app.
  - change (String c a +:+ x +:+ b) with (String c (a +:+ x +:+ b)).
    cbn [contains]. rewrite IH. apply orb_true_r.
Qed.

Lemma contains_skip a x t : contains x t = true -> contains x (a +:+ t) = true.
Proof.
  intros Ht. induction a as [|c a IH]; [exact Ht|].
  change (String c a +:+ t) with (String c (a +:+ t)).
  cbn [contains]. rewrite IH. apply orb_true_r.
Qed.

Lemma prefix_app_cong a x y :
  String.prefix x y = true -> String.prefix (a +:+ x) (a +:+ y) = true.
Proof.
  intros Hp. induction a as [|c a IH]; [exact Hp|]. simpl.
  destruct (ascii_dec c c); [exact IH | contradiction].
Qed.

(** ** The model at work on small inputs *)

Example strip_lower_sample :
  lower (strip "  ApProve  ") = "approve" /\ rstrip " a  b " = " a  b"
  /\ strip "" = "" /\ slice_from 6 "refine x" = " x".
Proof. repeat split. Qed.

Example start_sample :
  run (start "AAPL") =
    (inr tt,
     [SendMessage
        (user_request
           "Analyze AAPL and provide an investment recommendation with rationale.")]).
Proof. reflexivity. Qed.

Example validator_sample :
  SampleValidator.model_validate_json SampleValidator.well_formed =
    Some (mkInvestmentRecommendation "AAPL" "BUY" "strong cash flow" "HIGH")
  /\ SampleValidator.model_validate_json "{}" = None.
Proof. split; reflexivity. Qed.

(** The refine loop of the sample session, on a scripted workflow: the first
    answer is sent back under the id of its request, the second ends the run. *)
Example main_loop_sample :
  let r1 := RequestInfoEvent "id1" (ApprovalData (mkInvestmentApprovalRequest "P1" "" "MSFT")) in
  let r2 := RequestInfoEvent "id2" (ApprovalData (mkInvestmentApprovalRequest "P2" "" "MSFT")) in
  let '(outcome, w) :=
    main_loop 3 "MSFT"
      (mkWorld [" Refine focus on risk"; "approve"]
         [[r1]; [r2]; [WorkflowOutputEvent "ok"]] []) in
  outcome = Finished (Some "ok")
  /\ invocations (trace w) =
       [RunStream "MSFT";
        SendResponses {[ "id1" := "refine focus on risk" ]};
        SendResponses {[ "id2" := "approve" ]}].
Proof. vm_compute. split; reflexivity. Qed.

Example broker_sample :
  Broker.issued
    [[Broker.Register investment_turn_manager (mkInvestmentApprovalRequest "" "" "")];
     [Broker.Resolve 0 "refine";
      Broker.Register investment_turn_manager (mkInvestmentApprovalRequest "" "" "")]]
    Broker.empty = [0; 1].
Proof. reflexivity. Qed.

(** Finds a piece of a right-nested concatenation. *)
Ltac find_piece :=
  first
    [ apply contains_prefix; repeat apply prefix_app_cong; apply prefix_app
    | apply contains_skip; find_piece ].

(** ** The turn manager's handlers *)

Lemma on_agent_response_parsed validator result r :
  validator (or_empty (agent_run_response_text result)) = Some r ->
  run (on_agent_response validator result) =
    (inr tt,
     [SendMessage
        (MApprovalRequest
           (mkInvestmentApprovalRequest (recommendation_prompt r)
              (or_empty (agent_run_response_text result)) (rec_ticker r)))]).
Proof.
  intros Hv. unfold run, on_agent_response, try_except, validate.
  cbn. rewrite Hv. reflexivity.
Qed.

Lemma on_agent_response_fallback validator result :
  validator (or_empty (agent_run_response_text result)) = None ->
  run (on_agent_response validator result) =
    (inr tt,
     [SendMessage
        (MApprovalRequest
           (mkInvestmentApprovalRequest
              (fallback_prompt (or_empty (agent_run_response_text result)))
              (or_empty (agent_run_response_text result)) ""))]).
Proof.
  intros Hv. unfold run, on_agent_response, try_except, validate.
  cbn. rewrite Hv. reflexivity.
Qed.

(** Whatever the agent answers, the handler returns normally and has sent
    exactly one approval request. *)
Lemma on_agent_response_total validator result :
  exists req,
    run (on_agent_response validator result) =
      (inr tt, [SendMessage (MApprovalRequest req)]).
Proof.
  destruct (validator (or_empty (agent_run_response_text result))) as [r|] eqn:Hv.
  - eexists. apply on_agent_response_parsed. exact Hv.
  - eexists. apply on_agent_response_fallback. exact Hv.
Qed.

Lemma on_human_feedback_approve feedback :
  lower (strip (or_empty (data feedback))) = "approve" ->
  run (on_human_feedback feedback) =
    (inr tt, [YieldOutput (approved_text (getattr_ticker (original_request feedback)))]).
Proof. intros Hr. unfold run, on_human_feedback. rewrite Hr. reflexivity. Qed.

(** The refinement branch, for a reply that begins with [refine] and is
    longer than that word. *)
Lemma on_human_feedback_refine feedback rest :
  lower (strip (or_empty (data feedback))) = "refine" +:+ rest ->
  rest <> "" ->
  run (on_human_feedback feedback) =
    (inr tt, [SendMessage (user_request (refinement_text (strip rest)))]).
Proof.
  intros Hr Hne. unfold run, on_human_feedback. rewrite Hr.
  destruct rest as [|c rest]; [contradiction|]. reflexivity.
Qed.

(** [C1] A reply that is [approve] once trimmed and lower-cased makes
    [on_human_feedback] return normally with exactly one emission: the output
    "Investment recommendation for {ticker} approved and ready for
    execution.", built from the ticker of the original request.  The output
    contains that ticker and the word "approved", and no message is sent to
    the agent node. *)
Theorem approve_yields_single_output (feedback : RequestResponse) :
  lower (strip (or_empty (data feedback))) = "approve" ->
  run (on_human_feedback feedback) =
    (inr tt,
     [YieldOutput
        ("Investment recommendation for " +:+
         getattr_ticker (original_request feedback) +:+
         " approved and ready for execution.")])
  /\ contains (getattr_ticker (original_request feedback))
       (approved_text (getattr_ticker (original_request feedback))) = true
  /\ contains "approved"
       (approved_text (getattr_ticker (original_request feedback))) = true.
Proof.
  intros Hr. split; [now apply on_human_feedback_approve|].
  unfold approved_text. split.
  - apply contains_app.
  - apply contains_skip, contains_skip.
    apply (contains_app " " "approved" " and ready for execution.").
Qed.

Lemma approve_yields_single_output_witness :
  lower (strip " Approve ") = "approve"
  /\ run (on_human_feedback
            (mkRequestResponse (Some " Approve ")
               (Some (mkInvestmentApprovalRequest "p" "r" "AAPL")))) =
       (inr tt,
        [YieldOutput
           "Investment recommendation for AAPL approved and ready for execution."]).
Proof.
  split; [reflexivity|].
  exact (proj1 (approve_yields_single_output
                  (mkRequestResponse (Some " Approve ")
                     (Some (mkInvestmentApprovalRequest "p" "r" "AAPL")))
                  eq_refl)).
Defined.

(** [C2] When the agent's text does not validate against the schema,
    [on_agent_response] returns normally (the exception is caught) and has
    sent exactly one message: an [InvestmentApprovalRequest] for the
    request-info executor whose prompt is the fallback prompt, which contains
    the raw text between the two bars, whose [recommendation] is the raw text
    and whose [ticker] is empty.  No output is yielded. *)
Theorem parse_failure_degrades_prompt
    (validator : string -> option InvestmentRecommendation)
    (result : AgentExecutorResponse) :
  validator (or_empty (agent_run_response_text result)) = None ->
  exists req,
    run (on_agent_response validator result) =
      (inr tt, [SendMessage (MApprovalRequest req)])
    /\ destination (MApprovalRequest req) = request_info
    /\ prompt req =
         nl +:+ bar +:+ nl +:+ "INVESTMENT ANALYSIS" +:+ nl +:+ bar +:+ nl +:+
         or_empty (agent_run_response_text result) +:+ nl +:+ bar +:+ nl +:+ nl +:+
         "Type one of: approve, refine <feedback>, or exit" +:+ nl
    /\ contains (or_empty (agent_run_response_text result)) (prompt req) = true
    /\ recommendation req = or_empty (agent_run_response_text result).
Proof.
  intros Hv. eexists. split; [apply on_agent_response_fallback, Hv|].
  cbn [prompt recommendation destination]. repeat split.
  unfold fallback_prompt. find_piece.
Qed.

Lemma parse_failure_degrades_prompt_witness :
  SampleValidator.model_validate_json "I think AAPL is a buy" = None
  /\ exists req,
       run (on_agent_response SampleValidator.model_validate_json
              (mkAgentExecutorResponse (Some "I think AAPL is a buy"))) =
         (inr tt, [SendMessage (MApprovalRequest req)])
       /\ contains "I think AAPL is a buy" (prompt req) = true.
Proof.
  split; [reflexivity|].
  destruct (parse_failure_degrades_prompt SampleValidator.model_validate_json
              (mkAgentExecutorResponse (Some "I think AAPL is a buy")) eq_refl)
    as (req & Hrun & _ & _ & Hc & _).
  exists req. split; [exact Hrun | exact Hc].
Defined.

(** [C7] When the agent's text validates, the one approval request sent has
    the parsed recommendation's ticker as its [ticker], the raw text as its
    [recommendation], and a prompt that contains the four lines
    "Ticker: ...", "Action: ...", "Confidence: ..." and "Rationale: ..."
    filled with the parsed fields. *)
Theorem parsed_prompt_embeds_fields
    (validator : string -> option InvestmentRecommendation)
    (result : AgentExecutorResponse) (r : InvestmentRecommendation) :
  validator (or_empty (agent_run_response_text result)) = Some r ->
  exists req,
    run (on_agent_response validator result) =
      (inr tt, [SendMessage (MApprovalRequest req)])
    /\ ticker req = rec_ticker r
    /\ contains ("Ticker: " +:+ rec_ticker r +:+ nl) (prompt req) = true
    /\ contains ("Action: " +:+ rec_action r +:+ nl) (prompt req) = true
    /\ contains ("Confidence: " +:+ rec_confidence r +:+ nl) (prompt req) = true
    /\ contains ("Rationale: " +:+ rec_rationale r +:+ nl) (prompt req) = true.
Proof.
  intros Hv. eexists. split; [apply on_agent_response_parsed, Hv|].
  cbn [prompt ticker]. unfold recommendation_prompt.
  repeat split; find_piece.
Qed.

Lemma parsed_prompt_embeds_fields_witness :
  SampleValidator.model_validate_json SampleValidator.well_formed =
    Some (mkInvestmentRecommendation "AAPL" "BUY" "strong cash flow" "HIGH")
  /\ exists req,
       run (on_agent_response SampleValidator.model_validate_json
              (mkAgentExecutorResponse (Some SampleValidator.well_formed))) =
         (inr tt, [SendMessage (MApprovalRequest req)])
       /\ ticker req = "AAPL"
       /\ contains ("Action: " +:+ "BUY" +:+ nl) (prompt req) = true.
Proof.
  split; [reflexivity|].
  destruct (parsed_prompt_embeds_fields SampleValidator.model_validate_json
              (mkAgentExecutorResponse (Some SampleValidator.well_formed))
              (mkInvestmentRecommendation "AAPL" "BUY" "strong cash flow" "HIGH")
              eq_refl)
    as (req & Hrun & Ht & _ & Ha & _).
  exists req. repeat split; assumption.
Defined.

(** [C9] A reply that is exactly [refine] once trimmed and lower-cased still
    sends one refinement request to the agent node, with the default feedback
    "provide more details" in the place of the missing text. *)
Theorem bare_refine_uses_default_feedback (feedback : RequestResponse) :
  lower (strip (or_empty (data feedback))) = "refine" ->
  run (on_human_feedback feedback) =
    (inr tt,
     [SendMessage
        (MAgentRequest
           (mkAgentExecutorRequest
              [mkChatMessage USER
                 ("Please refine your recommendation based on this feedback: "
                  +:+ "provide more details" +:+ ". " +:+ schema_hint)]
              true))])
  /\ destination (user_request (refinement_text "provide more details"))
     = investment_agent.
Proof.
  intros Hr. split; [|reflexivity].
  unfold run, on_human_feedback. rewrite Hr. reflexivity.
Qed.

Lemma bare_refine_uses_default_feedback_witness :
  lower (strip "  Refine ") = "refine"
  /\ run (on_human_feedback (mkRequestResponse (Some "  Refine ") None)) =
       (inr tt,
        [SendMessage (user_request (refinement_text "provide more details"))]).
Proof.
  split; [reflexivity|].
  exact (proj1 (bare_refine_uses_default_feedback
                  (mkRequestResponse (Some "  Refine ") None) eq_refl)).
Defined.

(** [C10] When the agent's text does not validate, the approval request that
    is sent has the empty string as its ticker; a reply [approve] to that
    request then yields the output "Investment recommendation for  approved
    and ready for execution.", with nothing in the ticker slot. *)
Theorem degraded_request_approves_empty_ticker
    (validator : string -> option InvestmentRecommendation)
    (result : AgentExecutorResponse) (reply : option string) :
  validator (or_empty (agent_run_response_text result)) = None ->
  lower (strip (or_empty reply)) = "approve" ->
  exists req,
    run (on_agent_response validator result) =
      (inr tt, [SendMessage (MApprovalRequest req)])
    /\ ticker req = ""
    /\ run (on_human_feedback (mkRequestResponse reply (Some req))) =
         (inr tt,
          [YieldOutput
             "Investment recommendation for  approved and ready for execution."]).
Proof.
  intros Hv Hr. eexists. split; [apply on_agent_response_fallback, Hv|].
  split; [reflexivity|]. now rewrite on_human_feedback_approve.
Qed.

Lemma degraded_request_approves_empty_ticker_witness :
  SampleValidator.model_validate_json "AAPL looks fine" = None
  /\ lower (strip "APPROVE") = "approve"
  /\ exists req,
       run (on_agent_response SampleValidator.model_validate_json
              (mkAgentExecutorResponse (Some "AAPL looks fine"))) =
         (inr tt, [SendMessage (MApprovalRequest req)])
       /\ ticker req = ""
       /\ run (on_human_feedback (mkRequestResponse (Some "APPROVE") (Some req))) =
            (inr tt,
             [YieldOutput
                "Investment recommendation for  approved and ready for execution."]).
Proof.
  split; [reflexivity|]. split; [reflexivity|].
  exact (degraded_request_approves_empty_ticker
           SampleValidator.model_validate_json
           (mkAgentExecutorResponse (Some "AAPL looks fine"))
           (Some "APPROVE") eq_refl eq_refl).
Defined.

(** A keyword that is [refine] in some mix of cases begins with a letter,
    so trimming on the left leaves it in place. *)
Lemma lstrip_keyword keyword x :
  lower keyword = "refine" -> lstrip (keyword +:+ x) = keyword +:+ x.
Proof.
  destruct keyword as [|c keyword]; [discriminate|]. intros Hk.
  injection Hk as Hc _.
  change (String c keyword +:+ x) with (String c (keyword +:+ x)).
  cbn [lstrip]. now rewrite <- isspace_lower_char, Hc.
Qed.

(** The reply computed from the keyword, a space and a text that is not
    blank. *)
Lemma reply_of_refine_text keyword t :
  lower keyword = "refine" ->
  strip t <> "" ->
  lower (strip (keyword +:+ " " +:+ t)) = "refine" +:+ " " +:+ lower (rstrip t).
Proof.
  intros Hk Ht. unfold strip at 1. rewrite lstrip_keyword by exact Hk.
  assert (Hs : rstrip (" " +:+ t) = " " +:+ rstrip t)
    by now apply rstrip_app, strip_nonempty_rstrip.
  rewrite rstrip_app; rewrite Hs; [|discriminate].
  rewrite lower_app, Hk. reflexivity.
Qed.

(** The statement of [C3] fails on a feedback text with capitals: on its way
    to the agent the feedback is lower-cased with the rest of the reply. *)
Lemma refine_feedback_not_verbatim :
  exists txt,
    run (on_human_feedback (mkRequestResponse (Some "refine Focus on RISK") None)) =
      (inr tt, [SendMessage (user_request txt)])
    /\ contains "Focus on RISK" txt = false
    /\ contains "focus on risk" txt = true.
Proof. exists (refinement_text "focus on risk"). repeat split; reflexivity. Qed.

(** [C3] For a reply made of the word [refine] (in any mix of cases), a
    space and a feedback text that is not blank, [on_human_feedback] yields
    no output and sends exactly one refinement request to the agent node; its
    message carries the feedback text trimmed and lower-cased. *)
Theorem refine_carries_lowered_feedback
    (feedback : RequestResponse) (keyword free_text : string) :
  data feedback = Some (keyword +:+ " " +:+ free_text) ->
  lower keyword = "refine" ->
  strip free_text <> "" ->
  run (on_human_feedback feedback) =
    (inr tt,
     [SendMessage
        (MAgentRequest
           (mkAgentExecutorRequest
              [mkChatMessage USER
                 ("Please refine your recommendation based on this feedback: "
                  +:+ lower (strip free_text) +:+ ". " +:+ schema_hint)]
              true))])
  /\ destination (user_request (refinement_text (lower (strip free_text))))
     = investment_agent.
Proof.
  intros Hd Hk Ht. split; [|reflexivity].
  rewrite (on_human_feedback_refine feedback (" " +:+ lower (rstrip free_text))).
  - change (strip (" " +:+ lower (rstrip free_text)))
      with (strip (lower (rstrip free_text))).
    now rewrite strip_lower, strip_rstrip.
  - rewrite Hd. cbn [or_empty]. now apply reply_of_refine_text.
  - discriminate.
Qed.

Lemma refine_carries_lowered_feedback_witness :
  lower "Refine" = "refine"
  /\ strip "Focus on RISK " <> ""
  /\ run (on_human_feedback (mkRequestResponse (Some "Refine Focus on RISK ") None)) =
       (inr tt, [SendMessage (user_request (refinement_text "focus on risk"))]).
Proof.
  split; [reflexivity|]. split; [discriminate|].
  exact (proj1 (refine_carries_lowered_feedback
                  (mkRequestResponse (Some "Refine Focus on RISK ") None)
                  "Refine" "Focus on RISK " eq_refl eq_refl
                  (fun H : strip "Focus on RISK " = "" =>
                     eq_ind (strip "Focus on RISK ")
                       (fun s => match s with EmptyString => False | _ => True end)
                       I "" H))).
Defined.

(** The statement of [C4] fails on two replies outside the accepted forms
    that are nevertheless taken as refinement requests: a word that merely
    begins with [refine], and the bare word. *)
Lemma unaccepted_reply_taken_as_refinement :
  (lower (strip "refinery") <> "approve"
   /\ lower (strip "refinery") <> "exit"
   /\ (forall t, lower (strip "refinery") <> "refine " +:+ t)
   /\ run (on_human_feedback (mkRequestResponse (Some "refinery") None)) =
        (inr tt, [SendMessage (user_request (refinement_text "ry"))])
   /\ refinement_text "ry" <> invalid_input_text)
  /\ (lower (strip "refine") <> "approve"
      /\ lower (strip "refine") <> "exit"
      /\ (forall t, lower (strip "refine") <> "refine " +:+ t)
      /\ run (on_human_feedback (mkRequestResponse (Some "refine") None)) =
           (inr tt,
            [SendMessage (user_request (refinement_text "provide more details"))])
      /\ refinement_text "provide more details" <> invalid_input_text).
Proof.
  split; repeat split; try discriminate; intros t; discriminate.
Qed.

(** [C4] For a reply that, once trimmed and lower-cased, is not [approve]
    and does not begin with [refine], [on_human_feedback] yields no output
    and sends exactly one message to the agent node, asking for a valid
    recommendation in JSON format; and whatever the agent then answers,
    [on_agent_response] sends exactly one approval request, so the human is
    asked again. *)
Theorem non_refine_reply_reprompts (feedback : RequestResponse) :
  lower (strip (or_empty (data feedback))) <> "approve" ->
  startswith (lower (strip (or_empty (data feedback)))) "refine" = false ->
  run (on_human_feedback feedback) =
    (inr tt,
     [SendMessage
        (MAgentRequest
           (mkAgentExecutorRequest
              [mkChatMessage USER
                 "Please provide a valid investment recommendation in JSON format."]
              true))])
  /\ destination (user_request invalid_input_text) = investment_agent
  /\ forall validator result,
       exists req,
         run (on_agent_response validator result) =
           (inr tt, [SendMessage (MApprovalRequest req)]).
Proof.
  intros Ha Hs. split; [|split; [reflexivity | apply on_agent_response_total]].
  unfold run, on_human_feedback. apply String.eqb_neq in Ha.
  rewrite Ha, Hs. reflexivity.
Qed.

Lemma non_refine_reply_reprompts_witness :
  lower (strip " Maybe ") <> "approve"
  /\ startswith (lower (strip " Maybe ")) "refine" = false
  /\ run (on_human_feedback (mkRequestResponse (Some " Maybe ") None)) =
       (inr tt, [SendMessage (user_request invalid_input_text)]).
Proof.
  split; [discriminate|]. split; [reflexivity|].
  exact (proj1 (non_refine_reply_reprompts
                  (mkRequestResponse (Some " Maybe ") None)
                  (fun H : lower (strip " Maybe ") = "approve" =>
                     eq_ind (lower (strip " Maybe "))
                       (fun s => match s with
                                 | String "m" _ => True
                                 | _ => False
                                 end) I "approve" H)
                  eq_refl)).
Defined.

(** ** The caller loop *)

Section CallerLoopFacts.

Context {W : Type} {WF : Workflow W}.

Lemma scan_events events : forall requests workflow_output completed,
  fold_left scan_event events (requests, workflow_output, completed) =
    (requests ++ approval_requests events,
     match last_output events with
     | Some d => Some d
     | None => workflow_output
     end,
     completed || existsb is_output events).
Proof.
  induction events as [|e events IH]; intros requests out completed.
  - simpl. now rewrite app_nil_r, orb_false_r.
  - destruct e as [request_id [r|] | d | state | ]; simpl; rewrite IH;
      rewrite <- ?app_assoc, ?orb_true_r;
      now destruct (last_output events).
Qed.

Lemma invocations_snoc_print t s : invocations (t ++ [Print s]) = invocations t.
Proof. unfold invocations. rewrite List.filter_app. simpl. apply app_nil_r. Qed.

Lemma invocations_snoc_input t p : invocations (t ++ [Input p]) = invocations t.
Proof. unfold invocations. rewrite List.filter_app. simpl. apply app_nil_r. Qed.

Lemma same_run_refl (w : World W) : same_run w w.
Proof. now repeat split. Qed.

Lemma same_run_trans (w1 w2 w3 : World W) : same_run w1 w2 -> same_run w2 w3 -> same_run w1 w3.
Proof. unfold same_run. intros (?&?&?) (?&?&?). repeat split; congruence. Qed.

Lemma same_run_print s (w : World W) : same_run w (print s w).
Proof. repeat split. simpl. apply invocations_snoc_print. Qed.

Lemma same_run_report_status events (w : World W) : same_run w (report_status events w).
Proof.
  unfold report_status.
  destruct (existsb _ events), (existsb _ events);
    eauto using same_run_refl, same_run_print, same_run_trans.
Qed.

Lemma same_run_display_result o (w : World W) : same_run w (display_result o w).
Proof.
  unfold display_result. eauto 10 using same_run_print, same_run_trans.
Qed.

(** One iteration of the loop on a stream that holds an output event. *)
Lemma main_while_completed fuel ticker pending out0 (w : World W) events w1 :
  invoke ticker pending w = (events, w1) ->
  existsb is_output events = true ->
  main_while (S fuel) ticker pending out0 w =
    (Finished (last_output events),
     display_result (last_output events) (report_status events w1)).
Proof.
  intros Hi Ho. cbn [main_while]. rewrite Hi, scan_events, Ho. simpl.
  destruct (last_output events) as [d|] eqn:Hl.
  - now destruct (approval_requests events).
  - exfalso. clear Hi. induction events as [|e events IH]; [discriminate|].
    simpl in Hl. destruct (last_output events); [discriminate|].
    destruct e; try discriminate; simpl in Ho; auto.
Qed.

Lemma last_output_some events :
  existsb is_output events = true -> exists d, last_output events = Some d.
Proof.
  induction events as [|e events IH]; [discriminate|]. simpl. intros Ho.
  destruct (last_output events) as [d|]; [now exists d|].
  destruct e; simpl in Ho; eauto.
Qed.

(** The answers are read in order until one of them is [exit]. *)
Lemma collect_exit requests :
  forall before responses (w : World W) line after,
    stdin w = before ++ line :: after ->
    length before < length requests ->
    Forall (fun l => lower (strip l) <> "exit") before ->
    lower (strip line) = "exit" ->
    exists w',
      collect requests responses w = (Exit, w')
      /\ stdin w' = after
      /\ workflow w' = workflow w
      /\ invocations (trace w') = invocations (trace w)
      /\ last (trace w') = Some (Print (nl +:+ "Workflow cancelled by user.")).
Proof.
  induction requests as [|[req_id p] requests IH];
    intros before responses [sin wf tr] line after Hin Hlen Hbefore Hline;
    simpl in Hlen; [lia|].
  simpl in Hin. subst sin. destruct before as [|b before].
  - cbn. rewrite Hline. cbn. eexists. split; [reflexivity|]. cbn.
    repeat split.
    + now rewrite invocations_snoc_print, invocations_snoc_input,
        invocations_snoc_print.
    + apply last_snoc.
  - cbn. inversion Hbefore as [|? ? Hb Hrest]; subst.
    apply String.eqb_neq in Hb. rewrite Hb.
    edestruct (IH before (<[req_id := lower (strip b)]> responses)
                 (mkWorld (before ++ line :: after) wf
                    ((tr ++ [Print p]) ++ [Input "Your decision: "]))
                 line after) as (w' & Hc & Hs & Hw & Hi & Hl);
      [reflexivity | simpl in Hlen; lia | exact Hrest | exact Hline |].
    exists w'. split; [exact Hc|]. repeat split; try assumption.
    rewrite Hi. cbn. now rewrite invocations_snoc_input, invocations_snoc_print.
Qed.

(** An invocation reads no input and adds exactly one invocation to the
    trace. *)
Lemma invoke_world ticker pending (w : World W) events w1 :
  invoke ticker pending w = (events, w1) ->
  stdin w1 = stdin w
  /\ exists call, is_invocation call = true /\ trace w1 = trace w ++ [call].
Proof.
  unfold invoke. intros Hi.
  destruct pending as [responses|]; [destruct (bool_decide _)|];
    match type of Hi with
    | (let '(_, _) := ?c in _) = _ => destruct c
    end; inversion Hi; subst; simpl;
    (split; [reflexivity|]); eexists; (split; [|reflexivity]); reflexivity.
Qed.

(** [C5] When the stream of an invocation holds a [WorkflowOutputEvent],
    that iteration of the loop is the last: [main] finishes with the data
    of the last output event of the stream as the recorded output, whatever
    fuel is left, reads no answer from the input even if the stream also
    holds approval requests, and invokes the workflow no further: the trace
    gains that single invocation and the workflow is left as the invocation
    left it. *)
Theorem output_event_ends_loop fuel ticker pending out0 (w : World W) events w1 :
  invoke ticker pending w = (events, w1) ->
  existsb is_output events = true ->
  exists d w',
    last_output events = Some d
    /\ main_while (S fuel) ticker pending out0 w = (Finished (Some d), w')
    /\ stdin w' = stdin w
    /\ workflow w' = workflow w1
    /\ exists call,
         is_invocation call = true
         /\ invocations (trace w') = invocations (trace w) ++ [call].
Proof.
  intros Hi Ho. destruct (last_output_some events Ho) as [d Hd].
  exists d, (display_result (Some d) (report_status events w1)).
  split; [exact Hd|]. split.
  { rewrite (main_while_completed fuel ticker pending out0 w events w1 Hi Ho).
    now rewrite Hd. }
  destruct (invoke_world _ _ _ _ _ Hi) as (Hs & call & Hc & Ht).
  destruct (same_run_trans _ _ _ (same_run_report_status events w1)
              (same_run_display_result (Some d) (report_status events w1)))
    as (Hs' & Hw' & Hi').
  split; [congruence|]. split; [exact Hw'|].
  exists call. split; [exact Hc|]. rewrite Hi', Ht.
  unfold invocations. rewrite List.filter_app. simpl. now rewrite Hc.
Qed.

(** [C8] When the stream of an invocation holds approval requests and no
    output event, and one of the answers typed for those requests is [exit]
    once trimmed and lower-cased (the answers before it being other
    replies), [main] returns at once as cancelled: no answer of that round,
    neither [exit] nor the earlier ones, is sent to the workflow, which is
    left as the invocation left it; the result is not displayed, and the
    last line printed is the cancellation notice. *)
Theorem exit_cancels_without_delivery
    fuel ticker pending out0 (w : World W) events w1 before line after :
  invoke ticker pending w = (events, w1) ->
  existsb is_output events = false ->
  stdin w = before ++ line :: after ->
  length before < length (approval_requests events) ->
  Forall (fun l => lower (strip l) <> "exit") before ->
  lower (strip line) = "exit" ->
  exists w',
    main_while (S fuel) ticker pending out0 w = (Cancelled, w')
    /\ workflow w' = workflow w1
    /\ invocations (trace w') = invocations (trace w1)
    /\ stdin w' = after
    /\ last (trace w') = Some (Print (nl +:+ "Workflow cancelled by user.")).
Proof.
  intros Hi Ho Hin Hlen Hbefore Hline.
  destruct (invoke_world _ _ _ _ _ Hi) as (Hs & _).
  destruct (same_run_report_status events w1) as (Hs2 & Hw2 & Hi2).
  destruct (collect_exit (approval_requests events) before ∅
              (report_status events w1) line after)
    as (w' & Hc & Hs' & Hw' & Hi' & Hl); try assumption; [congruence|].
  exists w'. cbn [main_while]. rewrite Hi, scan_events, Ho. simpl.
  destruct (approval_requests events) as [|rq rqs] eqn:Hrq;
    [simpl in Hlen; lia|].
  rewrite Hc. repeat split; congruence.
Qed.

End CallerLoopFacts.

Lemma output_event_ends_loop_witness :
  existsb is_output
    [RequestInfoEvent "r1" (ApprovalData (mkInvestmentApprovalRequest "P" "" "T"));
     WorkflowOutputEvent "done"] = true
  /\ exists d w',
       main_while 1 "MSFT" None None
         (mkWorld ["approve"]
            [[RequestInfoEvent "r1"
                (ApprovalData (mkInvestmentApprovalRequest "P" "" "T"));
              WorkflowOutputEvent "done"]] []) = (Finished (Some d), w')
       /\ stdin w' = ["approve"].
Proof.
  split; [reflexivity|].
  destruct (output_event_ends_loop (WF := scripted_workflow) 0 "MSFT" None None
              (mkWorld ["approve"]
                 [[RequestInfoEvent "r1"
                     (ApprovalData (mkInvestmentApprovalRequest "P" "" "T"));
                   WorkflowOutputEvent "done"]] [])
              [RequestInfoEvent "r1"
                 (ApprovalData (mkInvestmentApprovalRequest "P" "" "T"));
               WorkflowOutputEvent "done"]
              (mkWorld ["approve"] [] [RunStream "MSFT"])
              eq_refl eq_refl)
    as (d & w' & _ & Hm & Hs & _).
  exists d, w'. split; [exact Hm | exact Hs].
Defined.

Lemma exit_cancels_without_delivery_witness :
  lower (strip " EXIT ") = "exit"
  /\ Forall (fun l => lower (strip l) <> "exit") ["refine more"]
  /\ exists w',
       main_while 1 "MSFT" None None
         (mkWorld ["refine more"; " EXIT "; "approve"]
            [[RequestInfoEvent "r1"
                (ApprovalData (mkInvestmentApprovalRequest "P1" "" "T"));
              RequestInfoEvent "r2"
                (ApprovalData (mkInvestmentApprovalRequest "P2" "" "T"))];
             [WorkflowOutputEvent "done"]] []) = (Cancelled, w')
       /\ invocations (trace w') = [RunStream "MSFT"]
       /\ stdin w' = ["approve"].
Proof.
  assert (Hb : Forall (fun l => lower (strip l) <> "exit") ["refine more"])
    by (repeat constructor; discriminate).
  split; [reflexivity|]. split; [exact Hb|].
  destruct (exit_cancels_without_delivery (WF := scripted_workflow) 0 "MSFT" None None
              (mkWorld ["refine more"; " EXIT "; "approve"]
                 [[RequestInfoEvent "r1"
                     (ApprovalData (mkInvestmentApprovalRequest "P1" "" "T"));
                   RequestInfoEvent "r2"
                     (ApprovalData (mkInvestmentApprovalRequest "P2" "" "T"))];
                  [WorkflowOutputEvent "done"]] [])
              [RequestInfoEvent "r1"
                 (ApprovalData (mkInvestmentApprovalRequest "P1" "" "T"));
               RequestInfoEvent "r2"
                 (ApprovalData (mkInvestmentApprovalRequest "P2" "" "T"))]
              (mkWorld ["refine more"; " EXIT "; "approve"]
                 [[WorkflowOutputEvent "done"]] [RunStream "MSFT"])
              ["refine more"] " EXIT " ["approve"]
              eq_refl eq_refl eq_refl (le_n 2) Hb eq_refl)
    as (w' & Hm & _ & Hi & Hs & _).
  exists w'. repeat split; assumption.
Defined.

(** ** The broker *)

Lemma invocation_ids ops : forall b ids b',
  Broker.invocation ops b = (ids, b') ->
  Broker.next_id b <= Broker.next_id b'
  /\ Forall (fun i => Broker.next_id b <= i < Broker.next_id b') ids
  /\ NoDup ids.
Proof.
  induction ops as [|[o p | id answer] ops IH]; intros b ids b' Hinv; simpl in Hinv.
  - inversion Hinv; subst. repeat split; [lia | constructor | constructor].
  - destruct (Broker.invocation ops _) as [ids1 b1] eqn:Hrec.
    inversion Hinv; subst. apply IH in Hrec as (Hle & Hall & Hnd). simpl in *.
    repeat split; [lia | |].
    + constructor; [lia|]. eapply Forall_impl; [exact Hall|]. simpl. lia.
    + constructor; [|exact Hnd]. intros Hin.
      rewrite Forall_forall in Hall. apply Hall in Hin. lia.
  - apply IH in Hinv as (Hle & Hall & Hnd).
    assert (Hn : Broker.next_id (snd (Broker.resolve id answer b)) = Broker.next_id b).
    { unfold Broker.resolve. now destruct (Broker.pending b !! id). }
    rewrite Hn in *. now repeat split.
Qed.

Lemma issued_from invocations : forall b,
  Forall (fun i => Broker.next_id b <= i) (Broker.issued invocations b)
  /\ NoDup (Broker.issued invocations b).
Proof.
  induction invocations as [|ops invocations IH]; intros b; simpl.
  - split; constructor.
  - destruct (Broker.invocation ops b) as [ids b1] eqn:Hinv.
    apply invocation_ids in Hinv as (Hle & Hall & Hnd).
    destruct (IH b1) as (Hall1 & Hnd1). split.
    + apply Forall_app. split.
      * eapply Forall_impl; [exact Hall|]. simpl. lia.
      * eapply Forall_impl; [exact Hall1|]. simpl. lia.
    + apply NoDup_app. repeat split; [exact Hnd | | exact Hnd1].
      intros i Hi Hi1. rewrite Forall_forall in Hall, Hall1.
      apply Hall in Hi. apply Hall1 in Hi1. lia.
Qed.

(** [C6] Over the successive invocations of one run, whatever requests are
    registered and resolved in between, the ids the broker issues are
    pairwise distinct: no id is issued twice, also not after the request it
    named has been resolved. *)
Theorem issued_ids_distinct (invocations : list (list Broker.Op)) :
  NoDup (Broker.issued invocations Broker.empty).
Proof. apply issued_from. Qed.

(** ** Further facts about the string operations *)

Lemma lower_char_idem c : lower_char (lower_char c) = lower_char c.
Proof. destruct c as [[] [] [] [] [] [] [] []]; reflexivity. Qed.

Lemma lower_idem s : lower (lower s) = lower s.
Proof.
  induction s as [|c s IH]; simpl; [reflexivity|].
  now rewrite lower_char_idem, IH.
Qed.

Lemma lstrip_idem s : lstrip (lstrip s) = lstrip s.
Proof.
  induction s as [|c s IH]; simpl; [reflexivity|].
  destruct (isspace c) eqn:Hc; [exact IH|]. simpl. now rewrite Hc.
Qed.

Lemma strip_idem s : strip (strip s) = strip s.
Proof.
  unfold strip. now rewrite <- (rstrip_lstrip (lstrip s)), lstrip_idem, rstrip_idem.
Qed.

(** Trimming and lower-casing a second time changes nothing. *)
Lemma normalise_idem s : lower (strip (lower (strip s))) = lower (strip s).
Proof. now rewrite strip_lower, lower_idem, strip_idem. Qed.

Lemma lstrip_empty_rstrip s : lstrip s = "" -> rstrip s = "".
Proof.
  induction s as [|c s IH]; simpl; [reflexivity|].
  destruct (isspace c); [|discriminate]. intros Hl. rewrite (IH Hl). reflexivity.
Qed.

(** A suffix of a right-trimmed string is right-trimmed. *)
Lemma rstrip_suffix a t : t <> "" -> rstrip (a +:+ t) = a +:+ t -> rstrip t = t.
Proof.
  intros Ht. induction a as [|c a IH]; [trivial|].
  change (String c a +:+ t) with (String c (a +:+ t)). cbn [rstrip].
  destruct (rstrip (a +:+ t)) as [|d r] eqn:Hr.
  - destruct (isspace c); intros Heq; [discriminate|].
    injection Heq as Heq. destruct a; [|discriminate].
    change ("" = t) in Heq. congruence.
  - intros Heq. injection Heq as Heq. apply IH. exact Heq.
Qed.

Lemma append_inv_head a s t : a +:+ s = a +:+ t -> s = t.
Proof.
  induction a as [|c a IH]; [trivial|]. intros Heq.
  change (String c (a +:+ s) = String c (a +:+ t)) in Heq.
  injection Heq as Heq. now apply IH.
Qed.

Lemma prefix_app_l x : forall a b,
  String.prefix x a = true -> String.prefix x (a +:+ b) = true.
Proof.
  induction x as [|c x IH]; intros a b Hp; [now destruct (a +:+ b)|].
  destruct a as [|d a]; [discriminate|].
  change (String d a +:+ b) with (String d (a +:+ b)). simpl in *.
  destruct (ascii_dec c d); [now apply IH | discriminate].
Qed.

Lemma contains_app_l x a b : contains x a = true -> contains x (a +:+ b) = true.
Proof.
  induction a as [|c a IH]; cbn [contains].
  - rewrite orb_false_r. intros Hp. destruct x; [|discriminate].
    now destruct ("" +:+ b).
  - intros Hc. apply orb_true_iff in Hc as [Hp|Hc].
    + apply contains_prefix. now apply prefix_app_l.
    + change (String c a +:+ b) with (String c (a +:+ b)). cbn [contains].
      rewrite (IH Hc). apply orb_true_r.
Qed.

(** Finds a text inside one of the literal pieces of a concatenation. *)
Ltac find_inside :=
  first
    [ apply contains_app_l; reflexivity
    | apply contains_skip; find_inside ].

(** ** More on the turn manager's handlers *)

(** [X1] [on_human_feedback] always returns normally with exactly one
    emission, and the reply, trimmed and lower-cased, decides which: an
    output exactly when it is [approve]; a refinement request exactly when it
    begins with [refine]; the request for a valid recommendation exactly when
    it is neither. *)
Theorem reply_decides_emission (feedback : RequestResponse) :
  exists e,
    run (on_human_feedback feedback) = (inr tt, [e])
    /\ ((exists o, e = YieldOutput o) <->
        lower (strip (or_empty (data feedback))) = "approve")
    /\ ((exists f, e = SendMessage (user_request (refinement_text f))) <->
        startswith (lower (strip (or_empty (data feedback)))) "refine" = true)
    /\ (e = SendMessage (user_request invalid_input_text) <->
        lower (strip (or_empty (data feedback))) <> "approve"
        /\ startswith (lower (strip (or_empty (data feedback)))) "refine" = false).
Proof.
  unfold run, on_human_feedback.
  destruct (String.eqb (lower (strip (or_empty (data feedback)))) "approve") eqn:E.
  - apply String.eqb_eq in E. eexists. split; [reflexivity|]. rewrite E.
    split; [|split]; split.
    + reflexivity.
    + intros _. eexists. reflexivity.
    + intros [f Hf]. discriminate Hf.
    + discriminate.
    + discriminate.
    + intros [Hn _]. contradiction.
  - apply String.eqb_neq in E.
    destruct (startswith _ "refine") eqn:Hs;
      (eexists; split; [reflexivity|]; split; [|split]; split).
    + intros [o Ho]. discriminate Ho.
    + intros Ha. contradiction.
    + reflexivity.
    + intros _. eexists. reflexivity.
    + intros Heq. discriminate Heq.
    + intros [_ Hf]. discriminate Hf.
    + intros [o Ho]. discriminate Ho.
    + intros Ha. contradiction.
    + intros [f Hf]. discriminate Hf.
    + discriminate.
    + intros _. split; [exact E | reflexivity].
    + reflexivity.
Qed.

(** [X2] The caller loop trims and lower-cases an answer before it sends
    it; the handler does so again.  The second pass changes nothing: the
    handler does the same on the answer as typed and on the answer as the
    loop sends it. *)
Theorem normalised_answer_same_handling
    (line : string) (request : option InvestmentApprovalRequest) :
  run (on_human_feedback (mkRequestResponse (Some (lower (strip line))) request)) =
  run (on_human_feedback (mkRequestResponse (Some line) request)).
Proof.
  unfold run, on_human_feedback. cbn [data or_empty original_request].
  now rewrite normalise_idem.
Qed.

(** [X3] A reply that is missing, empty or blank is taken as invalid
    input: no output, one message asking the agent for a valid
    recommendation. *)
Theorem blank_reply_reprompts (feedback : RequestResponse) :
  strip (or_empty (data feedback)) = "" ->
  run (on_human_feedback feedback) =
    (inr tt, [SendMessage (user_request invalid_input_text)]).
Proof. intros Hs. unfold run, on_human_feedback. now rewrite Hs. Qed.

Lemma blank_reply_reprompts_witness :
  run (on_human_feedback (mkRequestResponse None None)) =
    (inr tt, [SendMessage (user_request invalid_input_text)])
  /\ run (on_human_feedback (mkRequestResponse (Some "   ") None)) =
       (inr tt, [SendMessage (user_request invalid_input_text)]).
Proof.
  split.
  - exact (blank_reply_reprompts (mkRequestResponse None None) eq_refl).
  - exact (blank_reply_reprompts (mkRequestResponse (Some "   ") None) eq_refl).
Defined.

(** [X4] The handler has no case for [exit]: a reply [exit] that reaches it
    is answered like any invalid input, with a message to the agent, and
    neither ends nor cancels the run. *)
Theorem exit_reply_is_invalid_input (feedback : RequestResponse) :
  lower (strip (or_empty (data feedback))) = "exit" ->
  run (on_human_feedback feedback) =
    (inr tt, [SendMessage (user_request invalid_input_text)]).
Proof. intros Hr. unfold run, on_human_feedback. now rewrite Hr. Qed.

Lemma exit_reply_is_invalid_input_witness :
  lower (strip " Exit ") = "exit"
  /\ run (on_human_feedback (mkRequestResponse (Some " Exit ") None)) =
       (inr tt, [SendMessage (user_request invalid_input_text)]).
Proof.
  split; [reflexivity|].
  exact (exit_reply_is_invalid_input
           (mkRequestResponse (Some " Exit ") None) eq_refl).
Defined.

(** [X5] Approval is an exact match: a reply that begins with [approve] and
    goes on is not an approval.  It yields no output and is answered as
    invalid input. *)
Theorem approve_with_more_text_is_invalid_input
    (feedback : RequestResponse) (rest : string) :
  lower (strip (or_empty (data feedback))) = "approve" +:+ rest ->
  rest <> "" ->
  run (on_human_feedback feedback) =
    (inr tt, [SendMessage (user_request invalid_input_text)]).
Proof.
  intros Hr Hne. unfold run, on_human_feedback. rewrite Hr.
  destruct rest as [|c rest]; [contradiction|]. reflexivity.
Qed.

Lemma approve_with_more_text_is_invalid_input_witness :
  lower (strip "Approve it") = "approve" +:+ " it"
  /\ run (on_human_feedback (mkRequestResponse (Some "Approve it") None)) =
       (inr tt, [SendMessage (user_request invalid_input_text)]).
Proof.
  split; [reflexivity|].
  exact (approve_with_more_text_is_invalid_input
           (mkRequestResponse (Some "Approve it") None) " it" eq_refl
           (fun H : " it" = "" =>
              eq_ind " it"
                (fun s => match s with EmptyString => False | _ => True end)
                I "" H)).
Defined.

(** [X6] Every reply that begins with [refine] once trimmed and lower-cased
    (whatever follows the word, with or without a separator) sends one
    refinement request.  The feedback it carries is the default text when
    nothing follows the word, and the trimmed remainder otherwise; in both
    cases it is not empty, has no surrounding white space and no capital
    letters. *)
Theorem refine_feedback_never_blank (feedback : RequestResponse) (rest : string) :
  lower (strip (or_empty (data feedback))) = "refine" +:+ rest ->
  exists f,
    run (on_human_feedback feedback) =
      (inr tt, [SendMessage (user_request (refinement_text f))])
    /\ (rest = "" -> f = "provide more details")
    /\ (rest <> "" -> f = strip rest)
    /\ f <> "" /\ strip f = f /\ lower f = f.
Proof.
  intros Hr. destruct rest as [|c rest].
  - exists "provide more details". split.
    + unfold run, on_human_feedback. rewrite Hr. reflexivity.
    + repeat split; try reflexivity; try discriminate. intros Hn. contradiction.
  - exists (strip (String c rest)). split.
    + apply on_human_feedback_refine; [exact Hr | discriminate].
    + assert (Hright : rstrip (String c rest) = String c rest).
      { apply (rstrip_suffix "refine"); [discriminate|].
        rewrite <- Hr. unfold strip. now rewrite rstrip_lower, rstrip_idem. }
      assert (Hlow : lower (String c rest) = String c rest).
      { apply (append_inv_head "refine").
        change ("refine" +:+ lower (String c rest))
          with (lower "refine" +:+ lower (String c rest)).
        rewrite <- lower_app, <- Hr. apply lower_idem. }
      split; [discriminate|]. split; [reflexivity|]. split; [|split].
      * unfold strip. rewrite rstrip_lstrip, Hright. intros Hl.
        apply lstrip_empty_rstrip in Hl. rewrite Hright in Hl. discriminate.
      * apply strip_idem.
      * now rewrite <- strip_lower, Hlow.
Qed.

Lemma refine_feedback_never_blank_witness :
  lower (strip "REFINERY ") = "refine" +:+ "ry"
  /\ exists f,
       run (on_human_feedback (mkRequestResponse (Some "REFINERY ") None)) =
         (inr tt, [SendMessage (user_request (refinement_text f))])
       /\ f <> "".
Proof.
  split; [reflexivity|].
  destruct (refine_feedback_never_blank
              (mkRequestResponse (Some "REFINERY ") None) "ry" eq_refl)
    as (f & Hrun & _ & _ & Hne & _).
  exists f. split; [exact Hrun | exact Hne].
Defined.

(** [X7] Whatever the agent answers, and whether or not it validates,
    [on_agent_response] returns normally and sends exactly one approval
    request, for the request-info executor.  The request keeps the raw text
    as its [recommendation], and its prompt names the three replies
    [approve], [refine <feedback>] and [exit]. *)
Theorem approval_request_always_sent
    (validator : string -> option InvestmentRecommendation)
    (result : AgentExecutorResponse) :
  exists req,
    run (on_agent_response validator result) =
      (inr tt, [SendMessage (MApprovalRequest req)])
    /\ destination (MApprovalRequest req) = request_info
    /\ recommendation req = or_empty (agent_run_response_text result)
    /\ contains "approve" (prompt req) = true
    /\ contains "refine <feedback>" (prompt req) = true
    /\ contains "exit" (prompt req) = true.
Proof.
  destruct (validator (or_empty (agent_run_response_text result))) as [r|] eqn:Hv.
  - eexists. split; [apply on_agent_response_parsed, Hv|].
    cbn [prompt recommendation destination]. unfold recommendation_prompt.
    repeat split; find_inside.
  - eexists. split; [apply on_agent_response_fallback, Hv|].
    cbn [prompt recommendation destination]. unfold fallback_prompt.
    repeat split; find_inside.
Qed.

(** [X8] When the agent's text validates and the human approves, the
    output names the ticker found in the agent's text: the approved text is
    built from the parsed recommendation, not from what was asked. *)
Theorem parsed_then_approved_names_parsed_ticker
    (validator : string -> option InvestmentRecommendation)
    (result : AgentExecutorResponse) (r : InvestmentRecommendation)
    (reply : option string) :
  validator (or_empty (agent_run_response_text result)) = Some r ->
  lower (strip (or_empty reply)) = "approve" ->
  exists req,
    run (on_agent_response validator result) =
      (inr tt, [SendMessage (MApprovalRequest req)])
    /\ run (on_human_feedback (mkRequestResponse reply (Some req))) =
         (inr tt,
          [YieldOutput
             ("Investment recommendation for " +:+ rec_ticker r +:+
              " approved and ready for execution.")]).
Proof.
  intros Hv Hr. eexists. split; [apply on_agent_response_parsed, Hv|].
  now rewrite on_human_feedback_approve.
Qed.

Lemma parsed_then_approved_names_parsed_ticker_witness :
  SampleValidator.model_validate_json SampleValidator.well_formed =
    Some (mkInvestmentRecommendation "AAPL" "BUY" "strong cash flow" "HIGH")
  /\ lower (strip "approve") = "approve"
  /\ exists req,
       run (on_agent_response SampleValidator.model_validate_json
              (mkAgentExecutorResponse (Some SampleValidator.well_formed))) =
         (inr tt, [SendMessage (MApprovalRequest req)])
       /\ run (on_human_feedback (mkRequestResponse (Some "approve") (Some req))) =
            (inr tt,
             [YieldOutput
                "Investment recommendation for AAPL approved and ready for execution."]).
Proof.
  split; [reflexivity|]. split; [reflexivity|].
  exact (parsed_then_approved_names_parsed_ticker
           SampleValidator.model_validate_json
           (mkAgentExecutorResponse (Some SampleValidator.well_formed))
           (mkInvestmentRecommendation "AAPL" "BUY" "strong cash flow" "HIGH")
           (Some "approve") eq_refl eq_refl).
Defined.

(** [X9] [start] returns normally with exactly one emission: a request for
    the agent node, made of one user message that asks for a response and
    carries the ticker as given, neither trimmed nor changed in case. *)
Theorem start_sends_analysis_request (ticker : string) :
  exists t,
    run (start ticker) =
      (inr tt,
       [SendMessage
          (MAgentRequest (mkAgentExecutorRequest [mkChatMessage USER t] true))])
    /\ destination (user_request t) = investment_agent
    /\ t = "Analyze " +:+ ticker +:+
           " and provide an investment recommendation with rationale."
    /\ contains ticker t = true.
Proof.
  eexists. split; [reflexivity|]. split; [reflexivity|]. split; [reflexivity|].
  apply contains_app.
Qed.

(** ** More on the caller loop *)

#[local] Set Warnings "-clear-no-such-hyp".

Section CallerLoopMore.

Context {W : Type} {WF : Workflow W}.

Lemma last_output_none events :
  existsb is_output events = false -> last_output events = None.
Proof.
  induction events as [|e events IH]; [reflexivity|]. simpl. intros Ho.
  apply orb_false_iff in Ho as [He Ho]. rewrite (IH Ho).
  now destruct e.
Qed.

(** The answers of a round in which nobody types [exit]. *)
Lemma collect_answers requests :
  forall lines rest responses (w : World W),
    stdin w = lines ++ rest ->
    length lines = length requests ->
    Forall (fun l => lower (strip l) <> "exit") lines ->
    exists r w',
      collect requests responses w = (Answers r, w')
      /\ stdin w' = rest
      /\ workflow w' = workflow w
      /\ trace w' =
           trace w ++
           flat_map (fun rq => [Print rq.2; Input "Your decision: "]) requests
      /\ dom r = list_to_set (requests.*1) ∪ dom responses
      /\ (forall id, id ∉ requests.*1 -> r !! id = responses !! id)
      /\ (forall i id p line,
            requests !! i = Some (id, p) ->
            lines !! i = Some line ->
            id ∉ (drop (S i) requests).*1 ->
            r !! id = Some (lower (strip line))).
Proof.
  induction requests as [|[id0 p0] requests IH];
    intros lines rest responses [sin wf tr] Hin Hlen Hlines.
  - destruct lines; [|discriminate]. simpl in Hin. subst sin.
    exists responses. eexists. split; [reflexivity|]. simpl.
    repeat split; [now rewrite app_nil_r | set_solver | intros; discriminate].
  - destruct lines as [|l0 lines]; [discriminate|]. simpl in Hin. subst sin.
    inversion Hlines as [|? ? Hl0 Hrest]; subst. apply String.eqb_neq in Hl0.
    destruct (IH lines rest (<[id0 := lower (strip l0)]> responses)
                (mkWorld (lines ++ rest) wf
                   ((tr ++ [Print p0]) ++ [Input "Your decision: "])))
      as (r & w' & Hc & Hs & Hw & Ht & Hd & Hout & Hidx);
      [reflexivity | simpl in Hlen; lia | exact Hrest |].
    exists r, w'. cbn. rewrite Hl0. split; [exact Hc|].
    split; [exact Hs|]. split; [exact Hw|]. split.
    { rewrite Ht. cbn. now rewrite <- !app_assoc. }
    split. { rewrite Hd, dom_insert_L. set_solver. }
    split.
    { intros id Hid. cbn in Hid. apply not_elem_of_cons in Hid as [Hne Hid].
      rewrite (Hout id Hid).
      now apply lookup_insert_ne. }
    intros [|i] id p line Hrq Hline Hlater; simpl in *.
    + inversion Hrq; inversion Hline; subst.
      rewrite (Hout id Hlater). apply lookup_insert_eq.
    + eapply Hidx; eassumption.
Qed.

(** [X10] When a line is there for every request of the round and none of
    them is [exit], the prompts are printed in the order of the stream, each
    followed by the reading of one line; exactly those lines are consumed,
    the workflow is not touched, and the answers come back under exactly the
    ids of the requests. *)
Theorem answers_read_in_order
    (requests : list (string * string)) (lines rest : list string) (w : World W) :
  stdin w = lines ++ rest ->
  length lines = length requests ->
  Forall (fun l => lower (strip l) <> "exit") lines ->
  exists r w',
    collect requests ∅ w = (Answers r, w')
    /\ stdin w' = rest
    /\ workflow w' = workflow w
    /\ trace w' =
         trace w ++
         flat_map (fun rq => [Print rq.2; Input "Your decision: "]) requests
    /\ dom r = list_to_set (requests.*1).
Proof.
  intros Hin Hlen Hlines.
  destruct (collect_answers requests lines rest ∅ w Hin Hlen Hlines)
    as (r & w' & Hc & Hs & Hw & Ht & Hd & _).
  exists r, w'. repeat split; try assumption.
  rewrite Hd, dom_empty_L. set_solver.
Qed.

(** [X11] In the dictionary of such a round, a request id is bound to the
    trimmed, lower-cased line typed at its prompt; when an id occurs more
    than once in the stream, the line typed at its last prompt is the one
    kept. *)
Theorem answer_kept_under_request_id
    (requests : list (string * string)) (lines rest : list string) (w : World W)
    (i : nat) (id p line : string) :
  stdin w = lines ++ rest ->
  length lines = length requests ->
  Forall (fun l => lower (strip l) <> "exit") lines ->
  requests !! i = Some (id, p) ->
  lines !! i = Some line ->
  id ∉ (drop (S i) requests).*1 ->
  exists r w',
    collect requests ∅ w = (Answers r, w')
    /\ r !! id = Some (lower (strip line)).
Proof.
  intros Hin Hlen Hlines Hrq Hline Hlater.
  destruct (collect_answers requests lines rest ∅ w Hin Hlen Hlines)
    as (r & w' & Hc & _ & _ & _ & _ & _ & Hidx).
  exists r, w'. split; [exact Hc|]. eapply Hidx; eassumption.
Qed.

(** [X12] After such a round the loop goes round again with the dictionary
    as pending responses; the dictionary is not empty, so the invocation
    that follows is [send_responses_streaming] with these answers, not a new
    [run_stream]. *)
Theorem answers_resume_workflow
    fuel ticker pending out0 (w : World W) events w1 lines rest :
  invoke ticker pending w = (events, w1) ->
  existsb is_output events = false ->
  approval_requests events <> [] ->
  stdin w = lines ++ rest ->
  length lines = length (approval_requests events) ->
  Forall (fun l => lower (strip l) <> "exit") lines ->
  exists r w3,
    main_while (S fuel) ticker pending out0 w =
      main_while fuel ticker (Some r) out0 w3
    /\ r <> ∅
    /\ dom r = list_to_set ((approval_requests events).*1)
    /\ stdin w3 = rest
    /\ workflow w3 = workflow w1
    /\ invocations (trace w3) = invocations (trace w1)
    /\ trace (invoke ticker (Some r) w3).2 = trace w3 ++ [SendResponses r].
Proof.
  intros Hi Ho Hne Hin Hlen Hlines.
  destruct (invoke_world _ _ _ _ _ Hi) as (Hs & _).
  destruct (same_run_report_status events w1) as (Hs2 & Hw2 & Hi2).
  destruct (collect_answers (approval_requests events) lines rest ∅
              (report_status events w1))
    as (r & w3 & Hc & Hs3 & Hw3 & Ht3 & Hd & _); try assumption; [congruence|].
  assert (Hr : r <> ∅).
  { intros ->. rewrite !dom_empty_L in Hd.
    destruct (approval_requests events) as [|rq rqs]; [contradiction|].
    set_solver. }
  exists r, w3. split.
  { cbn [main_while]. rewrite Hi, scan_events, Ho, (last_output_none _ Ho).
    simpl. destruct (approval_requests events); [contradiction|].
    now rewrite Hc. }
  split; [exact Hr|]. split; [rewrite Hd, dom_empty_L; set_solver|].
  split; [exact Hs3|]. split; [congruence|]. split.
  { rewrite Ht3, <- Hi2. unfold invocations. rewrite List.filter_app.
    match goal with
    | |- _ ++ ?l = _ => assert (Hnil : l = [])
    end.
    { clear. induction (approval_requests events) as [|rq rqs IH];
        [reflexivity | exact IH]. }
    rewrite Hnil. apply app_nil_r. }
  unfold invoke. rewrite bool_decide_eq_false_2 by exact Hr.
  now destruct (send_responses_streaming r (workflow w3)).
Qed.

(** The answers of a round for which the input runs out. *)
Lemma collect_eof requests :
  forall responses (w : World W),
    length (stdin w) < length requests ->
    Forall (fun l => lower (strip l) <> "exit") (stdin w) ->
    exists w',
      collect requests responses w = (Eof, w')
      /\ stdin w' = []
      /\ workflow w' = workflow w
      /\ invocations (trace w') = invocations (trace w).
Proof.
  induction requests as [|[id0 p0] requests IH];
    intros responses [sin wf tr] Hlen Hlines; simpl in *; [lia|].
  destruct sin as [|l0 sin].
  - cbn. eexists. split; [reflexivity|]. cbn. repeat split.
    now rewrite invocations_snoc_input, invocations_snoc_print.
  - inversion Hlines as [|? ? Hl0 Hrest]; subst. apply String.eqb_neq in Hl0.
    cbn. rewrite Hl0.
    destruct (IH (<[id0 := lower (strip l0)]> responses)
                (mkWorld sin wf ((tr ++ [Print p0]) ++ [Input "Your decision: "])))
      as (w' & Hc & Hs & Hw & Hi); [simpl in *; lia | exact Hrest |].
    exists w'. split; [exact Hc|]. repeat split; try assumption.
    rewrite Hi. cbn. now rewrite invocations_snoc_input, invocations_snoc_print.
Qed.

(** [X13] When the input ends before every request of the round has its
    answer (and no answer typed so far is [exit]), [input] raises
    [EOFError]: [main] stops there, and the answers already typed in that
    round are not sent. *)
Theorem end_of_input_raises
    fuel ticker pending out0 (w : World W) events w1 :
  invoke ticker pending w = (events, w1) ->
  existsb is_output events = false ->
  length (stdin w) < length (approval_requests events) ->
  Forall (fun l => lower (strip l) <> "exit") (stdin w) ->
  exists w',
    main_while (S fuel) ticker pending out0 w = (EOFError, w')
    /\ stdin w' = []
    /\ workflow w' = workflow w1
    /\ invocations (trace w') = invocations (trace w1).
Proof.
  intros Hi Ho Hlen Hlines.
  destruct (invoke_world _ _ _ _ _ Hi) as (Hs & _).
  destruct (same_run_report_status events w1) as (Hs2 & Hw2 & Hi2).
  destruct (collect_eof (approval_requests events) ∅ (report_status events w1))
    as (w' & Hc & Hs' & Hw' & Hi'); [congruence | congruence |].
  exists w'. cbn [main_while]. rewrite Hi, scan_events, Ho. simpl.
  destruct (approval_requests events) as [|rq rqs]; [simpl in Hlen; lia|].
  rewrite Hc. repeat split; congruence.
Qed.

(** [X14] A stream with neither an approval request nor an output event
    (request events that carry other data do not count) asks nothing of the
    human: the loop goes round again with no pending responses, and the next
    invocation is [run_stream] with the same ticker. *)
Theorem stream_without_requests_restarts
    fuel ticker pending out0 (w : World W) events w1 :
  invoke ticker pending w = (events, w1) ->
  existsb is_output events = false ->
  approval_requests events = [] ->
  main_while (S fuel) ticker pending out0 w =
    main_while fuel ticker None out0 (report_status events w1)
  /\ stdin (report_status events w1) = stdin w
  /\ forall w2 : World W,
       trace (invoke ticker None w2).2 = trace w2 ++ [RunStream ticker].
Proof.
  intros Hi Ho Hrq. split; [|split].
  - cbn [main_while].
    rewrite Hi, scan_events, Ho, (last_output_none _ Ho), Hrq. reflexivity.
  - destruct (invoke_world _ _ _ _ _ Hi) as (Hs & _).
    destruct (same_run_report_status events w1) as (Hs2 & _). congruence.
  - intros w2. unfold invoke. now destruct (run_stream ticker (workflow w2)).
Qed.

(** [X15] The loop has no way out when [run_stream] keeps returning streams
    without approval request and without output: whatever the fuel, it is
    spent to the last unit on as many calls of [run_stream], no line of
    input is read, and [main] has not returned. *)
Theorem loop_never_ends_without_requests (ticker : string) :
  (forall wf : W,
     approval_requests (run_stream ticker wf).1 = []
     /\ existsb is_output (run_stream ticker wf).1 = false) ->
  forall fuel out0 (w : World W),
    exists w',
      main_while fuel ticker None out0 w = (OutOfFuel, w')
      /\ stdin w' = stdin w
      /\ invocations (trace w') =
           invocations (trace w) ++ replicate fuel (RunStream ticker).
Proof.
  intros Hidle fuel. induction fuel as [|fuel IH]; intros out0 w.
  - exists w. simpl. now rewrite app_nil_r.
  - destruct (Hidle (workflow w)) as [Hrq Ho].
    destruct (invoke ticker None w) as [events w1] eqn:Hi.
    assert (He : events = (run_stream ticker (workflow w)).1
                 /\ trace w1 = trace w ++ [RunStream ticker]).
    { unfold invoke in Hi. destruct (run_stream ticker (workflow w)).
      inversion Hi; subst. split; reflexivity. }
    destruct He as [-> Ht].
    destruct (stream_without_requests_restarts fuel ticker None out0 w _ w1 Hi Ho Hrq)
      as (Hstep & Hs & _).
    destruct (IH out0 (report_status (run_stream ticker (workflow w)).1 w1))
      as (w' & Hm & Hs' & Hi').
    exists w'. rewrite Hstep. split; [exact Hm|]. split; [congruence|].
    rewrite Hi'.
    destruct (same_run_report_status (run_stream ticker (workflow w)).1 w1)
      as (_ & _ & Hi2).
    rewrite Hi2, Ht. unfold invocations. rewrite List.filter_app. simpl.
    now rewrite <- app_assoc.
Qed.

Lemma well_formed_snoc_print t s :
  Forall well_formed_action t -> Forall well_formed_action (t ++ [Print s]).
Proof. intros Ht. apply Forall_app. split; [exact Ht | now repeat constructor]. Qed.

Lemma well_formed_snoc_input t p :
  Forall well_formed_action t -> Forall well_formed_action (t ++ [Input p]).
Proof. intros Ht. apply Forall_app. split; [exact Ht | now repeat constructor]. Qed.

Lemma well_formed_report_status events (w : World W) :
  Forall well_formed_action (trace w) ->
  Forall well_formed_action (trace (report_status events w)).
Proof.
  intros Ht. unfold report_status.
  destruct (existsb _ events), (existsb _ events); simpl;
    auto using well_formed_snoc_print.
Qed.

Lemma well_formed_display_result o (w : World W) :
  Forall well_formed_action (trace w) ->
  Forall well_formed_action (trace (display_result o w)).
Proof. intros Ht. unfold display_result. simpl. auto 10 using well_formed_snoc_print. Qed.

Lemma well_formed_invoke ticker pending (w : World W) :
  (forall r, pending = Some r -> map_Forall (fun _ a => sendable a) r) ->
  Forall well_formed_action (trace w) ->
  Forall well_formed_action (trace (invoke ticker pending w).2).
Proof.
  intros Hp Ht. unfold invoke.
  destruct pending as [r|]; [destruct (bool_decide (r = ∅)) eqn:Hr|].
  - destruct (run_stream ticker (workflow w)). simpl.
    apply Forall_app. split; [exact Ht | now repeat constructor].
  - destruct (send_responses_streaming r (workflow w)). simpl.
    apply Forall_app. split; [exact Ht|]. constructor; [|constructor]. split.
    + now apply bool_decide_eq_false in Hr.
    + now apply Hp.
  - destruct (run_stream ticker (workflow w)). simpl.
    apply Forall_app. split; [exact Ht | now repeat constructor].
Qed.

Lemma well_formed_collect requests :
  forall responses (w : World W),
    map_Forall (fun _ a => sendable a) responses ->
    Forall well_formed_action (trace w) ->
    Forall well_formed_action (trace (collect requests responses w).2)
    /\ forall r, (collect requests responses w).1 = Answers r ->
                 map_Forall (fun _ a => sendable a) r.
Proof.
  induction requests as [|[id0 p0] requests IH]; intros responses [sin wf tr] Hr Ht.
  - simpl. split; [exact Ht|]. intros r Heq. now inversion Heq; subst.
  - cbn. destruct sin as [|l0 sin]; cbn.
    + split; [|discriminate].
      now apply well_formed_snoc_input, well_formed_snoc_print.
    + destruct (String.eqb (lower (strip l0)) "exit") eqn:Hl0; cbn.
      * split; [|discriminate].
        now apply well_formed_snoc_print, well_formed_snoc_input,
          well_formed_snoc_print.
      * apply IH.
        -- apply map_Forall_insert_2; [|exact Hr]. split.
           ++ now apply String.eqb_neq.
           ++ apply normalise_idem.
        -- now apply well_formed_snoc_input, well_formed_snoc_print.
Qed.

Lemma well_formed_main_while fuel :
  forall ticker pending out0 (w : World W),
    (forall r, pending = Some r -> map_Forall (fun _ a => sendable a) r) ->
    Forall well_formed_action (trace w) ->
    Forall well_formed_action (trace (main_while fuel ticker pending out0 w).2).
Proof.
  induction fuel as [|fuel IH]; intros ticker pending out0 w Hp Ht; [exact Ht|].
  cbn [main_while].
  pose proof (well_formed_invoke ticker pending w Hp Ht) as Hi.
  destruct (invoke ticker pending w) as [events w1]. simpl in Hi.
  rewrite scan_events. simpl.
  pose proof (well_formed_report_status events w1 Hi) as Hs.
  destruct (existsb is_output events).
  - destruct (approval_requests events); simpl;
      now apply well_formed_display_result.
  - destruct (approval_requests events) as [|rq rqs] eqn:Hrq.
    + apply IH; [discriminate | exact Hs].
    + destruct (well_formed_collect (rq :: rqs) ∅ (report_status events w1))
        as [Hc Hr]; [apply map_Forall_empty | exact Hs |].
      destruct (collect (rq :: rqs) ∅ (report_status events w1)) as [[r| |] w3];
        simpl in *; try exact Hc.
      apply IH; [|exact Hc]. intros r' Heq. inversion Heq; subst. now apply Hr.
Qed.

(** [X16] Nothing but sendable answers ever reaches the workflow: in every
    batch of responses that [main] sends, however long it runs, the batch is
    not empty and each answer is trimmed, lower-cased and different from
    [exit]. *)
Theorem only_sendable_answers_delivered fuel ticker (w : World W) :
  Forall well_formed_action (trace w) ->
  Forall well_formed_action (trace (main_loop fuel ticker w).2).
Proof.
  intros Ht. unfold main_loop. apply well_formed_main_while; [discriminate|].
  now apply well_formed_snoc_print.
Qed.


End CallerLoopMore.

Lemma answers_read_in_order_witness :
  exists r w',
    collect [("a", "P1"); ("b", "P2")] ∅
      (mkWorld ["refine x"; " Approve "; "z"] (∅ : gmap nat nat) []) = (Answers r, w')
    /\ stdin w' = ["z"]
    /\ dom r = list_to_set ["a"; "b"].
Proof.
  assert (Hl : Forall (fun l => lower (strip l) <> "exit") ["refine x"; " Approve "])
    by (repeat constructor; discriminate).
  destruct (answers_read_in_order [("a", "P1"); ("b", "P2")]
              ["refine x"; " Approve "] ["z"]
              (mkWorld ["refine x"; " Approve "; "z"] (∅ : gmap nat nat) [])
              eq_refl eq_refl Hl)
    as (r & w' & Hc & Hs & _ & _ & Hd).
  exists r, w'. repeat split; assumption.
Defined.

Lemma answer_kept_under_request_id_witness :
  exists r w',
    collect [("a", "P1"); ("a", "P2")] ∅
      (mkWorld ["refine x"; " Approve "] (∅ : gmap nat nat) []) = (Answers r, w')
    /\ r !! "a" = Some "approve".
Proof.
  assert (Hl : Forall (fun l => lower (strip l) <> "exit") ["refine x"; " Approve "])
    by (repeat constructor; discriminate).
  assert (Hn : "a" ∉ (drop 2 [("a", "P1"); ("a", "P2")]).*1)
    by apply not_elem_of_nil.
  exact (answer_kept_under_request_id [("a", "P1"); ("a", "P2")]
           ["refine x"; " Approve "] []
           (mkWorld ["refine x"; " Approve "] (∅ : gmap nat nat) [])
           1 "a" "P2" " Approve " eq_refl eq_refl Hl eq_refl eq_refl Hn).
Defined.

Lemma answers_resume_workflow_witness :
  exists r w3,
    main_while 2 "MSFT" None None
      (mkWorld ["refine x"; "approve"]
         [[RequestInfoEvent "id1"
             (ApprovalData (mkInvestmentApprovalRequest "P1" "" "MSFT"))];
          [WorkflowOutputEvent "ok"]] []) =
    main_while 1 "MSFT" (Some r) None w3
    /\ r <> ∅
    /\ stdin w3 = ["approve"].
Proof.
  assert (Hl : Forall (fun l => lower (strip l) <> "exit") ["refine x"])
    by (repeat constructor; discriminate).
  destruct (answers_resume_workflow (WF := scripted_workflow) 1 "MSFT" None None
              (mkWorld ["refine x"; "approve"]
                 [[RequestInfoEvent "id1"
                     (ApprovalData (mkInvestmentApprovalRequest "P1" "" "MSFT"))];
                  [WorkflowOutputEvent "ok"]] [])
              [RequestInfoEvent "id1"
                 (ApprovalData (mkInvestmentApprovalRequest "P1" "" "MSFT"))]
              (mkWorld ["refine x"; "approve"] [[WorkflowOutputEvent "ok"]]
                 [RunStream "MSFT"])
              ["refine x"] ["approve"] eq_refl eq_refl
              (fun H : [("id1", "P1")] = [] =>
                 eq_ind [("id1", "P1")]
                   (fun l => match l with [] => False | _ => True end) I [] H)
              eq_refl eq_refl Hl)
    as (r & w3 & Hm & Hr & _ & Hs & _).
  exists r, w3. repeat split; assumption.
Defined.

Lemma end_of_input_raises_witness :
  exists w',
    main_while 1 "MSFT" None None
      (mkWorld ["refine x"]
         [[RequestInfoEvent "id1"
             (ApprovalData (mkInvestmentApprovalRequest "P1" "" "MSFT"));
           RequestInfoEvent "id2"
             (ApprovalData (mkInvestmentApprovalRequest "P2" "" "MSFT"))]] []) =
      (EOFError, w')
    /\ invocations (trace w') = [RunStream "MSFT"].
Proof.
  assert (Hl : Forall (fun l => lower (strip l) <> "exit") ["refine x"])
    by (repeat constructor; discriminate).
  destruct (end_of_input_raises (WF := scripted_workflow) 0 "MSFT" None None
              (mkWorld ["refine x"]
                 [[RequestInfoEvent "id1"
                     (ApprovalData (mkInvestmentApprovalRequest "P1" "" "MSFT"));
                   RequestInfoEvent "id2"
                     (ApprovalData (mkInvestmentApprovalRequest "P2" "" "MSFT"))]] [])
              [RequestInfoEvent "id1"
                 (ApprovalData (mkInvestmentApprovalRequest "P1" "" "MSFT"));
               RequestInfoEvent "id2"
                 (ApprovalData (mkInvestmentApprovalRequest "P2" "" "MSFT"))]
              (mkWorld ["refine x"] [] [RunStream "MSFT"])
              eq_refl eq_refl (le_n 2) Hl)
    as (w' & Hm & _ & _ & Hi).
  exists w'. split; assumption.
Defined.

Lemma stream_without_requests_restarts_witness :
  main_while 2 "MSFT" None None
    (mkWorld [] [[RequestInfoEvent "id1" OtherData]; [WorkflowOutputEvent "ok"]] []) =
  main_while 1 "MSFT" None None
    (mkWorld [] [[WorkflowOutputEvent "ok"]] [RunStream "MSFT"]).
Proof.
  exact (proj1 (stream_without_requests_restarts (WF := scripted_workflow)
                  1 "MSFT" None None
                  (mkWorld [] [[RequestInfoEvent "id1" OtherData];
                               [WorkflowOutputEvent "ok"]] [])
                  [RequestInfoEvent "id1" OtherData]
                  (mkWorld [] [[WorkflowOutputEvent "ok"]] [RunStream "MSFT"])
                  eq_refl eq_refl eq_refl)).
Defined.

Lemma loop_never_ends_without_requests_witness :
  exists w',
    main_while 4 "MSFT" None None (mkWorld ["approve"] tt []) = (OutOfFuel, w')
    /\ stdin w' = ["approve"]
    /\ invocations (trace w') = replicate 4 (RunStream "MSFT").
Proof.
  exact (loop_never_ends_without_requests (WF := idle_workflow) "MSFT"
           (fun _ => conj eq_refl eq_refl) 4 None (mkWorld ["approve"] tt [])).
Defined.

Lemma only_sendable_answers_delivered_witness :
  Forall well_formed_action
    (trace (main_loop 3 "MSFT"
              (mkWorld [" Refine focus on risk"; "approve"]
                 [[RequestInfoEvent "id1"
                     (ApprovalData (mkInvestmentApprovalRequest "P1" "" "MSFT"))];
                  [RequestInfoEvent "id2"
                     (ApprovalData (mkInvestmentApprovalRequest "P2" "" "MSFT"))];
                  [WorkflowOutputEvent "ok"]] [])).2).
Proof.
  exact (only_sendable_answers_delivered (WF := scripted_workflow) 3 "MSFT"
           (mkWorld [" Refine focus on risk"; "approve"]
              [[RequestInfoEvent "id1"
                  (ApprovalData (mkInvestmentApprovalRequest "P1" "" "MSFT"))];
               [RequestInfoEvent "id2"
                  (ApprovalData (mkInvestmentApprovalRequest "P2" "" "MSFT"))];
               [WorkflowOutputEvent "ok"]] [])
           (List.Forall_nil _)).
Defined.

